(** * Speaker-embedding encoders of hisohiso: a shallow embedding

    The two export scripts of the repository each define one PyTorch
    module whose [forward] is the whole inference function:

    - [scripts/convert_silero.py]: [SimpleSpeakerEmbedding], a 1-D CNN over
      a raw waveform;
    - [scripts/download_resemblyzer.py]: [ResemblyzerWrapper], an LSTM over
      a mel spectrogram.

    Tensors are nested lists of real numbers: the arithmetic of the tensor
    library is taken over the ideal reals, so rounding, overflow and NaN of
    the 32-bit floats are outside this model.  Two effects of the 32-bit
    arithmetic shape the statements below.  An epsilon added to a much
    larger norm is absorbed ([1 + 1e-8] rounds to [1]), so a value that is
    strictly below a bound over the reals can sit on the bound in the
    running code: bounds on returned values are stated non-strictly, and
    nothing is concluded from two returned rows being different.  A row of
    norm above about [1.8e19] has a sum of squares outside the 32-bit range,
    its norm is computed as infinite and the row is returned as zero:
    statements about the size of a normalized row carry an upper bound on
    the norm of the raw row.  An operation of the tensor library that raises
    on a shape error returns [None]. *)

From Stdlib Require Import Reals Lra Lia Ascii.
From stdpp Require Import base option list gmap strings pretty.

Abbreviation vec := (list R) (only parsing).
Abbreviation tensor2 := (list (list R)) (only parsing).
Abbreviation tensor3 := (list (list (list R))) (only parsing).

(** ** The tensor operations the two modules call *)

Module Torch.

(** Sum of the entries of a vector. *)
Definition sum (v : vec) : R := foldr Rplus 0%R v.

Definition dot (a b : vec) : R := sum (zip_with Rmult a b).

Definition zeros (n : nat) : vec := replicate n 0%R.

(** [torch.norm(x)] on one row: the 2-norm. *)
Definition l2norm (v : vec) : R := sqrt (sum (map (fun c => c * c)%R v)).

(** [x.norm(dim=1, keepdim=True)] on a [(B, D)] tensor: shape [(B, 1)]. *)
Definition norm_dim1_keepdim (x : tensor2) : tensor2 :=
  map (fun row => [l2norm row]) x.

(** [t + s] for a Python scalar [s]. *)
Definition add_scalar (t : tensor2) (s : R) : tensor2 :=
  map (map (fun c => c + s)%R) t.

(** [x / d] for [x] of shape [(B, D)] and [d] of shape [(B, 1)]: the
    single column of [d] is broadcast along dimension 1. *)
Definition div_broadcast (x d : tensor2) : tensor2 :=
  zip_with (fun row drow => map (fun c => c / hd 0 drow)%R row) x d.

(** [nn.ReLU()], not in place. *)
Definition relu (c : R) : R := Rmax 0 c.
Definition relu2 (x : tensor2) : tensor2 := map (map relu) x.
Definition relu3 (x : tensor3) : tensor3 := map (map (map relu)) x.

(** [x.unsqueeze(1)]: [(B, L)] to [(B, 1, L)]. *)
Definition unsqueeze1 (x : tensor2) : tensor3 := map (fun row => [row]) x.

(** [x.squeeze(-1)] on a tensor whose last dimension has size 1. *)
Definition squeeze_last (x : tensor3) : tensor2 := map (map (hd 0%R)) x.

(** [nn.Conv1d(in_channels, out_channels, kernel_size, stride)]: no
    padding, dilation 1.  [weight] has shape [(out, in, kernel)]. *)
Record Conv1d := mkConv1d {
  in_channels : nat;
  out_channels : nat;
  kernel_size : nat;
  stride : nat;
  conv_weight : tensor3;
  conv_bias : vec
}.

Definition conv1d_out_len (L k s : nat) : nat := (L - k) / s + 1.

(** One output entry: the filter laid over the input at offset [pos]. *)
Definition corr_at (filt x : tensor2) (pos k : nat) : R :=
  sum (zip_with (fun f xc => dot f (take k (drop pos xc))) filt x).

(** One sample, shape [(C_in, L)].  The library raises when the channel
    count differs from [in_channels] or the kernel is longer than the
    input. *)
Definition conv1d_sample (c : Conv1d) (x : tensor2) : option tensor2 :=
  let L := length (hd [] x) in
  if decide (length x = in_channels c ∧ kernel_size c ≤ L) then
    Some (zip_with
            (fun filt b =>
               map (fun t => (b + corr_at filt x (t * stride c) (kernel_size c))%R)
                   (seq 0 (conv1d_out_len L (kernel_size c) (stride c))))
            (conv_weight c) (conv_bias c))
  else None.

Definition conv1d (c : Conv1d) (x : tensor3) : option tensor3 :=
  mapM (conv1d_sample c) x.

(** [nn.AdaptiveAvgPool1d(1)]: the mean over the time axis,
    [(B, C, L)] to [(B, C, 1)]. *)
Definition mean (v : vec) : R := (sum v / INR (length v))%R.
Definition adaptive_avg_pool1 (x : tensor3) : tensor3 :=
  map (map (fun ch => [mean ch])) x.

(** [nn.Linear(in_features, out_features)]: [y = x W^T + b], [weight] of
    shape [(out, in)]. *)
Record Linear := mkLinear {
  in_features : nat;
  out_features : nat;
  lin_weight : tensor2;
  lin_bias : vec
}.

Definition linear_row (l : Linear) (v : vec) : option vec :=
  if decide (length v = in_features l) then
    Some (zip_with (fun w b => dot v w + b)%R (lin_weight l) (lin_bias l))
  else None.

Definition linear (l : Linear) (x : tensor2) : option tensor2 :=
  mapM (linear_row l) x.

(** [nn.LSTM(input_size, hidden_size, num_layers, batch_first=True)]
    without dropout, started from zero state.  Per layer the library holds
    [weight_ih] of shape [(4H, in)], [weight_hh] of shape [(4H, H)] and two
    biases of length [4H]; the four blocks of [H] rows are the input,
    forget, cell and output gates, in that order. *)
Record LSTMLayer := mkLSTMLayer {
  weight_ih : tensor2;
  weight_hh : tensor2;
  bias_ih : vec;
  bias_hh : vec
}.

Record LSTM := mkLSTM {
  input_size : nat;
  hidden_size : nat;
  lstm_layers : list LSTMLayer
}.

Definition sigmoid (x : R) : R := (1 / (1 + exp (- x)))%R.

Definition matvec (W : tensor2) (v : vec) : vec := map (fun w => dot w v) W.

Definition chunk (H i : nat) (v : vec) : vec := take H (drop (i * H) v).

Definition lstm_cell (ly : LSTMLayer) (H : nat) (x : vec) (hc : vec * vec)
  : vec * vec :=
  let gates :=
    zip_with Rplus
      (zip_with Rplus (matvec (weight_ih ly) x) (bias_ih ly))
      (zip_with Rplus (matvec (weight_hh ly) hc.1) (bias_hh ly)) in
  let i := map sigmoid (chunk H 0 gates) in
  let f := map sigmoid (chunk H 1 gates) in
  let g := map tanh (chunk H 2 gates) in
  let o := map sigmoid (chunk H 3 gates) in
  let c' := zip_with Rplus (zip_with Rmult f hc.2) (zip_with Rmult i g) in
  (zip_with Rmult o (map tanh c'), c').

(** One layer over one sequence: the hidden state at every step, and the
    final hidden and cell state. *)
Fixpoint lstm_scan (ly : LSTMLayer) (H : nat) (hc : vec * vec) (xs : list vec)
  : list vec * (vec * vec) :=
  match xs with
  | [] => ([], hc)
  | x :: xs' =>
      let hc' := lstm_cell ly H x hc in
      let r := lstm_scan ly H hc' xs' in
      (hc'.1 :: r.1, r.2)
  end.

(** The stack of layers over a batch [(B, T, in)]: the output of the last
    layer [(B, T, H)], and [h_n], [c_n] of shape [(layers, B, H)]. *)
Fixpoint lstm_stack (H : nat) (lys : list LSTMLayer) (x : tensor3)
  : tensor3 * (tensor3 * tensor3) :=
  match lys with
  | [] => (x, ([], []))
  | ly :: rest =>
      let r := map (lstm_scan ly H (zeros H, zeros H)) x in
      let deeper := lstm_stack H rest (map fst r) in
      (deeper.1,
       (map (fun s => s.2.1) r :: deeper.2.1,
        map (fun s => s.2.2) r :: deeper.2.2))
  end.

(** The library raises when a frame does not have [input_size] entries,
    and on a sequence without frames. *)
Definition lstm (m : LSTM) (x : tensor3) : option (tensor3 * (tensor3 * tensor3)) :=
  if decide (Forall (fun s => s ≠ [] ∧ Forall (fun fr => length fr = input_size m) s) x)
  then Some (lstm_stack (hidden_size m) (lstm_layers m) x)
  else None.

(** ** Shapes of the parameters a constructor allocates *)

Definition conv_shape_ok (c : Conv1d) (cin cout k s : nat) : bool :=
  bool_decide (in_channels c = cin) && bool_decide (out_channels c = cout)
  && bool_decide (kernel_size c = k) && bool_decide (stride c = s)
  && bool_decide (length (conv_weight c) = cout)
  && forallb (fun filt => bool_decide (length filt = cin)
                          && forallb (fun row => bool_decide (length row = k)) filt)
             (conv_weight c)
  && bool_decide (length (conv_bias c) = cout).

Definition linear_shape_ok (l : Linear) (fin fout : nat) : bool :=
  bool_decide (in_features l = fin) && bool_decide (out_features l = fout)
  && bool_decide (length (lin_weight l) = fout)
  && forallb (fun row => bool_decide (length row = fin)) (lin_weight l)
  && bool_decide (length (lin_bias l) = fout).

Definition lstm_layer_ok (H nin : nat) (ly : LSTMLayer) : bool :=
  bool_decide (length (weight_ih ly) = 4 * H)
  && forallb (fun row => bool_decide (length row = nin)) (weight_ih ly)
  && bool_decide (length (weight_hh ly) = 4 * H)
  && forallb (fun row => bool_decide (length row = H)) (weight_hh ly)
  && bool_decide (length (bias_ih ly) = 4 * H)
  && bool_decide (length (bias_hh ly) = 4 * H).

Fixpoint lstm_layers_ok (H nin : nat) (lys : list LSTMLayer) : bool :=
  match lys with
  | [] => true
  | ly :: rest => lstm_layer_ok H nin ly && lstm_layers_ok H H rest
  end.

(** At least one layer; the first reads the input, the others the layer
    below. *)
Definition lstm_shape_ok (m : LSTM) (nin H : nat) : bool :=
  bool_decide (input_size m = nin) && bool_decide (hidden_size m = H)
  && match lstm_layers m with [] => false | _ :: _ => true end
  && lstm_layers_ok H nin (lstm_layers m).

End Torch.

(** ** scripts/convert_silero.py *)

Module Silero.
Import Torch.

(** The parameters held by a [SimpleSpeakerEmbedding]; [pool] and [relu]
    hold none. *)
Record SimpleSpeakerEmbedding := mkSimple {
  conv1 : Conv1d;
  conv2 : Conv1d;
  conv3 : Conv1d;
  fc : Linear
}.

(** What [__init__] fixes: the hyper-parameters of each layer and, with
    them, the shapes of the (randomly initialised) parameters. *)
Definition init_ok (m : SimpleSpeakerEmbedding) : bool :=
  conv_shape_ok (conv1 m) 1 32 80 16
  && conv_shape_ok (conv2 m) 32 64 3 2
  && conv_shape_ok (conv3 m) 64 128 3 2
  && linear_shape_ok (fc m) 128 128.

(** [forward], statement by statement. *)
Definition forward (m : SimpleSpeakerEmbedding) (x : tensor2) : option tensor2 :=
  let x := unsqueeze1 x in
  x ← relu3 <$> conv1d (conv1 m) x;
  x ← relu3 <$> conv1d (conv2 m) x;
  x ← relu3 <$> conv1d (conv3 m) x;
  let x := adaptive_avg_pool1 x in
  let x := squeeze_last x in
  x ← linear (fc m) x;
  let x := div_broadcast x (add_scalar (norm_dim1_keepdim x) 1e-8) in
  Some x.

End Silero.

(** ** scripts/download_resemblyzer.py *)

Module Resemblyzer.
Import Torch.

(** The wrapper keeps the [lstm] and [linear] of the loaded encoder. *)
Record ResemblyzerWrapper := mkWrapper {
  lstm : LSTM;
  linear : Linear
}.

(** What loading the encoder fixes, as the script's comments record it:
    frames of 40 mel channels in, an embedding of 256 entries out.  The
    hidden size and the number of layers are the encoder's own. *)
Definition loaded_ok (m : ResemblyzerWrapper) : bool :=
  lstm_shape_ok (lstm m) 40 (hidden_size (lstm m))
  && linear_shape_ok (linear m) (hidden_size (lstm m)) 256.

(** [forward]: [hidden[-1]] is the last entry along the layer axis. *)
Definition forward (m : ResemblyzerWrapper) (mels : tensor3) : option tensor2 :=
  '(out, (hidden, _)) ← Torch.lstm (lstm m) mels;
  h ← last hidden;
  embeds_raw ← relu2 <$> Torch.linear (linear m) h;
  let embeds :=
    div_broadcast embeds_raw (add_scalar (norm_dim1_keepdim embeds_raw) 1e-5) in
  Some embeds.

End Resemblyzer.

(** ** The contracts of the specification, per frame *)

Module Spec.
Import Torch.

(** EmbeddingNormalizer: [v / max(|v|, eps)]. *)
Definition normalize (eps : R) (v : vec) : vec :=
  map (fun c => c / Rmax (l2norm v) eps)%R v.

(** SimilarityScorer. *)
Definition score (a b : vec) : R := dot a b.

(** One convolution-and-nonlinearity stage on one frame. *)
Definition conv_stage (c : Conv1d) (x : tensor2) : option tensor2 :=
  map (map relu) <$> conv1d_sample c x.

Definition global_avg_pool (x : tensor2) : vec := map mean x.

(** CNN variant: three stages, global average pooling, one affine
    projection. *)
Definition encode_cnn (m : Silero.SimpleSpeakerEmbedding) (frame : vec)
  : option vec :=
  f1 ← conv_stage (Silero.conv1 m) [frame];
  f2 ← conv_stage (Silero.conv2 m) f1;
  f3 ← conv_stage (Silero.conv3 m) f2;
  linear_row (Silero.fc m) (global_avg_pool f3).

(** The hidden-state sequence of the final layer for one frame sequence. *)
Fixpoint run_layers (H : nat) (lys : list LSTMLayer) (xs : list vec) : list vec :=
  match lys with
  | [] => xs
  | ly :: rest => run_layers H rest (lstm_scan ly H (zeros H, zeros H) xs).1
  end.

(** Recurrent variant: the final layer's hidden state after the last
    frame, one affine projection, a nonlinearity. *)
Definition encode_rec (m : Resemblyzer.ResemblyzerWrapper) (frames : tensor2)
  : option vec :=
  let r := Resemblyzer.lstm m in
  if decide (frames ≠ [] ∧ Forall (fun fr => length fr = input_size r) frames) then
    h ← last (run_layers (hidden_size r) (lstm_layers r) frames);
    map relu <$> linear_row (Resemblyzer.linear m) h
  else None.

End Spec.

(** ** What the normalization line computes on one row *)

Module Embedding.
Import Torch.

(** [v / (|v| + eps)]: the row-wise reading of
    [x / (x.norm(dim=1, keepdim=True) + eps)]. *)
Definition l2_normalize (eps : R) (v : vec) : vec :=
  map (fun c => c / (l2norm v + eps))%R v.

(** The normalization line itself, as both [forward]s write it. *)
Definition normalize_line (eps : R) (x : tensor2) : tensor2 :=
  div_broadcast x (add_scalar (norm_dim1_keepdim x) eps).

Definition eps_cnn : R := 1e-8.
Definition eps_rec : R := 1e-5.

End Embedding.

(** ** The two [forward]s as programs over the interpreter's objects

    A call of [forward] receives a reference to the input tensor, reads the
    parameters through [self], and every tensor operation it performs
    allocates its result as a new object (a view such as [unsqueeze] or
    [hidden[-1]] is a new tensor object too; no operation of either
    [forward] writes into an existing one). *)

Module Runtime.
Import Torch.

Inductive obj :=
| OT2 (t : tensor2)
| OT3 (t : tensor3).

Definition as2 (o : obj) : option tensor2 :=
  match o with OT2 t => Some t | _ => None end.
Definition as3 (o : obj) : option tensor3 :=
  match o with OT3 t => Some t | _ => None end.

(** The attributes of the module ([self]) and the live tensor objects. *)
Record state (P : Type) := mkState {
  params : P;
  objs : gmap nat obj
}.
Arguments mkState {P} _ _.
Arguments params {P} _.
Arguments objs {P} _.

(** State and exception. *)
Definition St (P A : Type) : Type := state P → option (A * state P).

Definition ret {P A : Type} (a : A) : St P A := fun σ => Some (a, σ).

Definition bind {P A B : Type} (c : St P A) (k : A → St P B) : St P B :=
  fun σ => match c σ with
           | Some (a, σ') => k a σ'
           | None => None
           end.

Definition next {P : Type} (σ : state P) : nat := fresh (dom (objs σ)).

Definition with_obj {P : Type} (o : obj) (σ : state P) : state P :=
  mkState (params σ) (<[next σ := o]> (objs σ)).

Definition alloc {P : Type} (o : obj) : St P nat :=
  fun σ => Some (next σ, with_obj o σ).

(** [σ'] extends [σ]: same module attributes, every object of [σ] still
    there with the same value. *)
Definition ext {P : Type} (σ σ' : state P) : Prop :=
  params σ' = params σ ∧ objs σ ⊆ objs σ'.

(** A tensor operation of one argument: read it, compute (the library may
    raise), allocate the result. *)
Definition op1 {P X : Type} (rd : obj → option X) (f : P → X → option obj)
           (l : nat) : St P nat :=
  fun σ => match objs σ !! l ≫= rd with
           | Some t => match f (params σ) t with
                       | Some r => alloc r σ
                       | None => None
                       end
           | None => None
           end.

Definition op2 {P X Y : Type} (rd1 : obj → option X) (rd2 : obj → option Y)
           (f : P → X → Y → option obj) (l1 l2 : nat) : St P nat :=
  fun σ => match objs σ !! l1 ≫= rd1, objs σ !! l2 ≫= rd2 with
           | Some t1, Some t2 => match f (params σ) t1 t2 with
                                 | Some r => alloc r σ
                                 | None => None
                                 end
           | _, _ => None
           end.

(** The operations both modules use. *)
Section Ops.
Context {P : Type}.

Definition unsqueeze : nat → St P nat :=
  op1 as2 (fun _ t => Some (OT3 (unsqueeze1 t))).
Definition call_conv (layer : P → Conv1d) : nat → St P nat :=
  op1 as3 (fun p t => OT3 <$> conv1d (layer p) t).
Definition call_relu3 : nat → St P nat :=
  op1 as3 (fun _ t => Some (OT3 (relu3 t))).
Definition call_relu2 : nat → St P nat :=
  op1 as2 (fun _ t => Some (OT2 (relu2 t))).
Definition call_pool : nat → St P nat :=
  op1 as3 (fun _ t => Some (OT3 (adaptive_avg_pool1 t))).
Definition squeeze : nat → St P nat :=
  op1 as3 (fun _ t => Some (OT2 (squeeze_last t))).
Definition call_linear (layer : P → Linear) : nat → St P nat :=
  op1 as2 (fun p t => OT2 <$> linear (layer p) t).
Definition norm : nat → St P nat :=
  op1 as2 (fun _ t => Some (OT2 (norm_dim1_keepdim t))).
Definition add (s : R) : nat → St P nat :=
  op1 as2 (fun _ t => Some (OT2 (add_scalar t s))).
Definition div : nat → nat → St P nat :=
  op2 as2 as2 (fun _ t d => Some (OT2 (div_broadcast t d))).
Definition index_last : nat → St P nat :=
  op1 as3 (fun _ t => OT2 <$> last t).

(** [self.lstm(mels)]: three new tensors, [out] and the pair
    [(h_n, c_n)]. *)
Definition call_lstm (layer : P → LSTM) (l : nat) : St P (nat * (nat * nat)) :=
  fun σ => match objs σ !! l ≫= as3 with
           | Some t =>
               match lstm (layer (params σ)) t with
               | Some r =>
                   let σ1 := with_obj (OT3 r.1) σ in
                   let σ2 := with_obj (OT3 r.2.1) σ1 in
                   let σ3 := with_obj (OT3 r.2.2) σ2 in
                   Some ((next σ, (next σ1, next σ2)), σ3)
               | None => None
               end
           | None => None
           end.
End Ops.

Module SileroRun.
Definition forward (x : nat) : St Silero.SimpleSpeakerEmbedding nat :=
  bind (unsqueeze x) (fun x =>
  bind (call_conv Silero.conv1 x) (fun c =>
  bind (call_relu3 c) (fun x =>
  bind (call_conv Silero.conv2 x) (fun c =>
  bind (call_relu3 c) (fun x =>
  bind (call_conv Silero.conv3 x) (fun c =>
  bind (call_relu3 c) (fun x =>
  bind (call_pool x) (fun x =>
  bind (squeeze x) (fun x =>
  bind (call_linear Silero.fc x) (fun x =>
  bind (norm x) (fun n =>
  bind (add 1e-8 n) (fun d =>
  bind (div x d) (fun x =>
  ret x))))))))))))).
End SileroRun.

Module ResemblyzerRun.
Definition forward (mels : nat) : St Resemblyzer.ResemblyzerWrapper nat :=
  bind (call_lstm Resemblyzer.lstm mels) (fun r =>
  bind (index_last r.2.1) (fun h =>
  bind (call_linear Resemblyzer.linear h) (fun p =>
  bind (call_relu2 p) (fun embeds_raw =>
  bind (norm embeds_raw) (fun n =>
  bind (add 1e-5 n) (fun d =>
  bind (div embeds_raw d) (fun embeds =>
  ret embeds))))))).
End ResemblyzerRun.

End Runtime.

(** ** Shapes *)

(** A [(r, c)] matrix. *)
Definition shape2 (r c : nat) (x : tensor2) : Prop :=
  length x = r ∧ Forall (fun row => length row = c) x.

(** The traced input of the CNN: [(1, 32000)], two seconds at 16 kHz. *)
Definition waveform_samples : nat := 32 * 1000.

(** The traced input of the wrapper: [(1, 160, 40)]. *)
Definition n_frames : nat := 160.
Definition mel_channels : nat := 40.

(** The three time lengths after a waveform of [L] samples. *)
Definition len1 (L : nat) : nat := Torch.conv1d_out_len L 80 16.
Definition len2 (L : nat) : nat := Torch.conv1d_out_len (len1 L) 3 2.
Definition len3 (L : nat) : nat := Torch.conv1d_out_len (len2 L) 3 2.

(** ** Concrete parameter sets

    Every convolution and recurrent weight is zero, the projection has zero
    weights and a chosen bias [b]: the raw embedding is then [b] (after the
    wrapper's ReLU, for the recurrent variant) whatever the input. *)

Module Examples.
Import Torch.

Definition conv_zero (cin cout k s : nat) : Conv1d :=
  mkConv1d cin cout k s (replicate cout (replicate cin (zeros k))) (zeros cout).

Definition linear_bias (fin : nat) (b : vec) : Linear :=
  mkLinear fin (length b) (replicate (length b) (zeros fin)) b.

Definition silero_model (b : vec) : Silero.SimpleSpeakerEmbedding :=
  Silero.mkSimple (conv_zero 1 32 80 16) (conv_zero 32 64 3 2)
                  (conv_zero 64 128 3 2) (linear_bias 128 b).

Definition lstm_layer_zero (H nin : nat) : LSTMLayer :=
  mkLSTMLayer (replicate (4 * H) (zeros nin)) (replicate (4 * H) (zeros H))
              (zeros (4 * H)) (zeros (4 * H)).

(** Three layers of 256 hidden units, the sizes of the published
    encoder. *)
Definition rec_model (b : vec) : Resemblyzer.ResemblyzerWrapper :=
  Resemblyzer.mkWrapper
    (mkLSTM 40 256 [lstm_layer_zero 256 40; lstm_layer_zero 256 256;
                    lstm_layer_zero 256 256])
    (linear_bias 256 b).

(** A silent waveform of [L] samples, and a silent mel sequence. *)
Definition silence (L : nat) : vec := zeros L.
Definition silent_mels (T : nat) : tensor2 := replicate T (zeros 40).

(** A store holding one input tensor, at object id 0. *)
Definition silero_store : Runtime.state Silero.SimpleSpeakerEmbedding :=
  Runtime.mkState (silero_model (zeros 128)) {[ 0 := Runtime.OT2 [silence 176] ]}.

End Examples.

(** ** The file system and the console the two [main]s act on

    A path names at most one entry, a regular file or a directory; a number
    stands for what the entry holds, for a directory everything beneath it.
    Entries are kept by path only: that a directory contains the paths below
    it is not tracked, so the statements about [main] speak of the output
    directory, the model path and the backup path, and of no path beneath
    them. *)

Module Os.

Inductive node :=
| File (data : nat)
| Dir (data : nat).

(** What [os.makedirs] creates. *)
Definition empty_dir : node := Dir 0.

Inductive exn :=
| FileExistsError
| NotADirectoryError
| FileNotFoundError
| ShutilError
| LibraryError.

Record world := mkWorld {
  files : gmap string node;
  stdout : list string
}.

Inductive result (A : Type) :=
| Ok (a : A)
| Raised (e : exn).
Arguments Ok {A} _.
Arguments Raised {A} _.

(** A statement runs in a world and leaves a world, also when it raises. *)
Definition IO (A : Type) : Type := world → result A * world.

Definition ret {A : Type} (a : A) : IO A := fun w => (Ok a, w).

Definition bind {A B : Type} (c : IO A) (k : A → IO B) : IO B :=
  fun w => match c w with
           | (Ok a, w') => k a w'
           | (Raised e, w') => (Raised e, w')
           end.

Definition seq {A B : Type} (c : IO A) (k : IO B) : IO B := bind c (fun _ => k).

Definition raise {A : Type} (e : exn) : IO A := fun w => (Raised e, w).

(** A library call that either returns or raises. *)
Definition lift {A : Type} (r : option A) : IO A :=
  match r with
  | Some a => ret a
  | None => raise LibraryError
  end.

Definition print (s : string) : IO unit :=
  fun w => (Ok tt, mkWorld (files w) (stdout w ++ [s])).

(** *** [os.path], POSIX flavour *)

Definition starts_with_sep (s : string) : bool :=
  match s with
  | String c _ => bool_decide (c = "/"%char)
  | EmptyString => false
  end.

Definition ends_with_sep (s : string) : bool :=
  bool_decide (last (String.list_ascii_of_string s) = Some "/"%char).

(** [os.path.join(a, b)]. *)
Definition join (a b : string) : string :=
  if starts_with_sep b then b
  else if bool_decide (a = EmptyString) || ends_with_sep a then a +:+ b
  else a +:+ "/" +:+ b.

Fixpoint drop_while (P : ascii → bool) (l : list ascii) : list ascii :=
  match l with
  | [] => []
  | c :: l' => if P c then drop_while P l' else l
  end.

Definition is_sep (c : ascii) : bool := bool_decide (c = "/"%char).

Definition rstrip_sep (l : list ascii) : list ascii :=
  rev (drop_while is_sep (rev l)).

(** [os.path.dirname(p)]: up to the last separator; trailing separators of
    the result are dropped unless it consists of separators only. *)
Definition dirname (p : string) : string :=
  let head := rev (drop_while (fun c => negb (is_sep c))
                              (rev (String.list_ascii_of_string p))) in
  String.string_of_list_ascii
    (if forallb is_sep head then head else rstrip_sep head).

Fixpoint take_while (P : ascii → bool) (l : list ascii) : list ascii :=
  match l with
  | [] => []
  | c :: l' => if P c then c :: take_while P l' else []
  end.

(** The last component of a path without its trailing separators. *)
Definition basename (p : string) : string :=
  String.string_of_list_ascii
    (rev (take_while (fun c => negb (is_sep c))
                     (rev (rstrip_sep (String.list_ascii_of_string p))))).

(** [os.path.exists(p)]. *)
Definition exists_ (p : string) : IO bool :=
  fun w => (Ok (bool_decide (is_Some (files w !! p))), w).

(** [os.makedirs(p, exist_ok=True)]. *)
Definition makedirs (p : string) : IO unit :=
  fun w => match files w !! p with
           | None => (Ok tt, mkWorld (<[p := empty_dir]> (files w)) (stdout w))
           | Some (Dir _) => (Ok tt, w)
           | Some (File _) => (Raised FileExistsError, w)
           end.

(** [shutil.rmtree(p)]. *)
Definition rmtree (p : string) : IO unit :=
  fun w => match files w !! p with
           | Some (Dir _) => (Ok tt, mkWorld (delete p (files w)) (stdout w))
           | Some (File _) => (Raised NotADirectoryError, w)
           | None => (Raised FileNotFoundError, w)
           end.

Definition rename (src dst : string) (n : node) (w : world) : world :=
  mkWorld (<[dst := n]> (delete src (files w))) (stdout w).

(** [shutil.move(src, dst)]: a rename when [dst] is free; into [dst] when
    it is a directory; over [dst] when both are regular files. *)
Definition move (src dst : string) : IO unit :=
  fun w => match files w !! src with
           | None => (Raised FileNotFoundError, w)
           | Some n =>
               match files w !! dst with
               | None => (Ok tt, rename src dst n w)
               | Some (Dir _) =>
                   if bool_decide (src = dst) then (Ok tt, w)
                   else
                     let real_dst := join dst (basename src) in
                     if bool_decide (is_Some (files w !! real_dst))
                     then (Raised ShutilError, w)
                     else (Ok tt, rename src real_dst n w)
               | Some (File _) =>
                   match n with
                   | File _ => (Ok tt, rename src dst n w)
                   | Dir _ => (Raised FileExistsError, w)
                   end
               end
           end.

(** [mlmodel.save(p)]: whatever is at [p] is replaced by the package. *)
Definition save (p : string) (pkg : nat) : IO unit :=
  fun w => (Ok tt, mkWorld (<[p := Dir pkg]> (files w)) (stdout w)).

Definition nl : string := String "010"%char EmptyString.

(** Both scripts write to the same place, relative to their own file. *)
Definition output_dir (file : string) : string :=
  join (join (dirname file) "..") "Resources".
Definition output_path (file : string) : string :=
  join (output_dir file) "SpeakerEmbedding.mlpackage".
Definition backup_path (file : string) : string :=
  output_path file +:+ ".backup".

End Os.

(** ** scripts/download_resemblyzer.py: [convert_resemblyzer_to_coreml] and
    [main] *)

Module ResemblyzerScript.
Import Os.

(** What the libraries supply: the wrapped encoder that [VoiceEncoder()]
    loads (or a failure), the lines its constructor prints when it has
    loaded, the values [torch.randn(1, n_frames, 40)] draws, and the
    package [ct.convert] builds (or a failure). *)
Record externals := mkExternals {
  load_encoder : option Resemblyzer.ResemblyzerWrapper;
  encoder_lines : list string;
  randn : tensor3;
  ct_convert : option nat
}.

(** Lines a library call writes to the console. *)
Definition print_lines (ls : list string) : IO unit :=
  fun w => (Ok tt, mkWorld (files w) (stdout w ++ ls)).

Definition convert_resemblyzer_to_coreml (ext : externals) (output_path : string)
  : IO nat :=
  seq (print "Loading Resemblyzer model...") (
  bind (lift (load_encoder ext)) (fun wrapper =>
  seq (print_lines (encoder_lines ext)) (
  seq (print "Creating traceable wrapper...") (
  let example_input := randn ext in
  seq (print "Tracing model...") (
  bind (lift (Resemblyzer.forward wrapper example_input)) (fun traced =>
  seq (print "Converting to CoreML...") (
  bind (lift (ct_convert ext)) (fun mlmodel =>
  seq (save output_path mlmodel) (
  seq (print ("Saved CoreML model to: " +:+ output_path)) (
  seq (print (nl +:+ "Model info:")) (
  seq (print ("  Input: mel_spectrogram (1, " +:+ pretty n_frames +:+ ", 40)")) (
  seq (print "  Output: embedding (1, 256)") (
  ret mlmodel))))))))))))).

(** The block of [main] that runs when a model is already there. *)
Definition backup_old_model (output_path : string) : IO unit :=
  bind (exists_ output_path) (fun there =>
  if there then
    let backup_path := output_path +:+ ".backup" in
    seq (bind (exists_ backup_path) (fun old =>
         if old then rmtree backup_path else ret tt)) (
    seq (move output_path backup_path) (
    print ("Backed up old model to " +:+ backup_path)))
  else ret tt).

Definition main (ext : externals) (file : string) : IO unit :=
  let output_dir := join (join (dirname file) "..") "Resources" in
  seq (makedirs output_dir) (
  let output_path := join output_dir "SpeakerEmbedding.mlpackage" in
  seq (backup_old_model output_path) (
  seq (convert_resemblyzer_to_coreml ext output_path) (
  seq (print (nl +:+ "Done! The model now uses pre-trained Resemblyzer weights.")) (
  seq (print "Note: You'll need to update VoiceVerifier.swift to:") (
  seq (print "  1. Compute mel spectrograms from audio") (
  print "  2. Use 256-dim embeddings instead of 128")))))).

End ResemblyzerScript.

(** ** scripts/convert_silero.py: [create_simple_embedding_model],
    [convert_to_coreml] and [main] *)

Module SileroScript.
Import Torch.

(** A parameter tensor of rank 1, 2 or 3. *)
Inductive param :=
| P1 (t : vec)
| P2 (t : tensor2)
| P3 (t : tensor3).

(** [p.numel()]: the number of scalars. *)
Definition numel (p : param) : nat :=
  match p with
  | P1 t => length t
  | P2 t => list_sum (map length t)
  | P3 t => list_sum (map (fun f => list_sum (map length f)) t)
  end.

(** [model.parameters()], in registration order. *)
Definition parameters (m : Silero.SimpleSpeakerEmbedding) : list param :=
  [ P3 (conv_weight (Silero.conv1 m)); P1 (conv_bias (Silero.conv1 m));
    P3 (conv_weight (Silero.conv2 m)); P1 (conv_bias (Silero.conv2 m));
    P3 (conv_weight (Silero.conv3 m)); P1 (conv_bias (Silero.conv3 m));
    P2 (lin_weight (Silero.fc m)); P1 (lin_bias (Silero.fc m)) ].

(** [sum(p.numel() for p in model.parameters())]. *)
Definition count_parameters (m : Silero.SimpleSpeakerEmbedding) : nat :=
  list_sum (map numel (parameters m)).

(** [f"{n:,}"]: decimal digits in groups of three. *)
Fixpoint group3 (rev_digits : list ascii) : list ascii :=
  match rev_digits with
  | a :: b :: c :: rest =>
      match rest with
      | [] => [a; b; c]
      | _ :: _ => a :: b :: c :: ","%char :: group3 rest
      end
  | short => short
  end.

Definition format_commas (n : nat) : string :=
  String.string_of_list_ascii (rev (group3 (rev (String.list_ascii_of_string (pretty n))))).

(** What the libraries supply: the freshly initialised module that
    [SimpleSpeakerEmbedding()] builds, the values [torch.randn(1, 32000)]
    draws, and the package [ct.convert] builds (or a failure). *)
Record externals := mkExternals {
  init_model : Silero.SimpleSpeakerEmbedding;
  randn : tensor2;
  ct_convert : option nat
}.

Definition create_simple_embedding_model (ext : externals)
  : Os.IO Silero.SimpleSpeakerEmbedding :=
  Os.ret (init_model ext).

Definition convert_to_coreml (ext : externals)
           (model : Silero.SimpleSpeakerEmbedding) (output_path : string)
  : Os.IO nat :=
  Os.seq (Os.print "Converting to CoreML...") (
  let example_input := randn ext in
  Os.bind (Os.lift (Silero.forward model example_input)) (fun traced_model =>
  Os.bind (Os.lift (ct_convert ext)) (fun mlmodel =>
  Os.seq (Os.save output_path mlmodel) (
  Os.seq (Os.print ("Saved CoreML model to: " +:+ output_path)) (
  Os.ret mlmodel))))).

Definition main (ext : externals) (file : string) : Os.IO unit :=
  let output_dir := Os.join (Os.join (Os.dirname file) "..") "Resources" in
  Os.seq (Os.makedirs output_dir) (
  let output_path := Os.join output_dir "SpeakerEmbedding.mlpackage" in
  Os.seq (Os.print "Creating speaker embedding model...") (
  Os.bind (create_simple_embedding_model ext) (fun model =>
  Os.seq (Os.print ("Model parameters: " +:+ format_commas (count_parameters model))) (
  Os.seq (convert_to_coreml ext model output_path) (
  Os.seq (Os.print (Os.nl +:+ "Done! Model saved to Resources/SpeakerEmbedding.mlpackage")) (
  Os.seq (Os.print (Os.nl +:+ "Note: This is a simple model for development. For production,")) (
  Os.print "consider using a pre-trained model like ECAPA-TDNN or Resemblyzer."))))))).

End SileroScript.

(** What [convert_resemblyzer_to_coreml] prints on its way to a saved
    package, and what [main] prints after it. *)
Definition convert_lines (ext : ResemblyzerScript.externals) (out : string)
  : list string :=
  "Loading Resemblyzer model..." :: ResemblyzerScript.encoder_lines ext
  ++ [ "Creating traceable wrapper...";
       "Tracing model..."; "Converting to CoreML...";
       "Saved CoreML model to: " +:+ out; Os.nl +:+ "Model info:";
       "  Input: mel_spectrogram (1, 160, 40)"; "  Output: embedding (1, 256)" ].

Definition done_lines : list string :=
  [ Os.nl +:+ "Done! The model now uses pre-trained Resemblyzer weights.";
    "Note: You'll need to update VoiceVerifier.swift to:";
    "  1. Compute mel spectrograms from audio";
    "  2. Use 256-dim embeddings instead of 128" ].

(** What [main] of convert_silero.py prints on a successful run. *)
Definition silero_lines (out : string) : list string :=
  [ "Creating speaker embedding model..."; "Model parameters: 50,016";
    "Converting to CoreML..."; "Saved CoreML model to: " +:+ out;
    Os.nl +:+ "Done! Model saved to Resources/SpeakerEmbedding.mlpackage";
    Os.nl +:+ "Note: This is a simple model for development. For production,";
    "consider using a pre-trained model like ECAPA-TDNN or Resemblyzer." ].

(** ** Agreement of two file systems outside some paths *)

Definition same_except (ps : list string) (f f' : gmap string Os.node) : Prop :=
  ∀ q, q ∉ ps → f' !! q = f !! q.

(** ** Concrete runs of the scripts *)

Module ScriptExamples.
Import Os.

Definition script : string := "scripts/download_resemblyzer.py".

(** A working tool chain that builds package [pkg]. *)
Definition tools (pkg : nat) : ResemblyzerScript.externals :=
  ResemblyzerScript.mkExternals
    (Some (Examples.rec_model (Torch.zeros 256)))
    ["Loaded the voice encoder model on cpu in 0.01 seconds."]
    [Examples.silent_mels n_frames]
    (Some pkg).

(** A tool chain whose encoder cannot be loaded. *)
Definition broken_tools : ResemblyzerScript.externals :=
  ResemblyzerScript.mkExternals None [] [Examples.silent_mels n_frames] (Some 9).

Definition silero_tools (pkg : nat) : SileroScript.externals :=
  SileroScript.mkExternals
    (Examples.silero_model (Torch.zeros 128))
    [Examples.silence waveform_samples]
    (Some pkg).

(** Nothing on disk; a model on disk; a model and an older backup; a model
    and a regular file where the backup would go. *)
Definition empty_world : world := mkWorld ∅ [].
Definition world_with_model : world :=
  mkWorld {[ output_path script := Dir 1 ]} [].
Definition world_with_backup : world :=
  mkWorld (<[ backup_path script := Dir 2 ]> {[ output_path script := Dir 1 ]}) [].
Definition world_with_file_backup : world :=
  mkWorld (<[ backup_path script := File 2 ]> {[ output_path script := Dir 1 ]}) [].

End ScriptExamples.

(** * Properties *)

Import Torch.

(** ** Sums, dot products and norms *)

Section Norms.
Local Open Scope R_scope.

Lemma sum_cons (a : R) (v : vec) : sum (a :: v) = a + sum v.
Proof. reflexivity. Qed.

Lemma sum_zeros (n : nat) : sum (zeros n) = 0.
Proof.
  induction n as [|n IH]; [reflexivity|].
  unfold zeros in *. cbn [replicate]. rewrite sum_cons, IH. lra.
Qed.

Lemma sum_nonneg (v : vec) : Forall (fun c => 0 <= c) v -> 0 <= sum v.
Proof.
  induction 1 as [|c v Hc _ IH]; [cbn; lra|].
  rewrite sum_cons. lra.
Qed.

Lemma sum_sq_nonneg (v : vec) : 0 <= sum (map (fun c => c * c) v).
Proof.
  apply sum_nonneg, Forall_forall. intros c Hc.
  apply list_elem_of_fmap in Hc as (d & -> & _). nra.
Qed.


Lemma l2norm_nonneg (v : vec) : 0 <= l2norm v.
Proof. apply sqrt_pos. Qed.


Lemma dot_self (v : vec) : dot v v = sum (map (fun c => c * c) v).
Proof.
  unfold dot. induction v as [|a v IH]; [reflexivity|].
  cbn [zip_with map]. rewrite !sum_cons, IH. reflexivity.
Qed.

Lemma l2norm_zeros (n : nat) : l2norm (zeros n) = 0.
Proof.
  unfold l2norm.
  replace (map (fun c => c * c) (zeros n)) with (zeros n).
  - rewrite sum_zeros. apply sqrt_0.
  - unfold zeros. induction n as [|n IH]; [reflexivity|].
    cbn [replicate map]. rewrite <- IH. f_equal. lra.
Qed.

(** A vector with a single nonzero entry in front. *)
Lemma l2norm_single (a : R) (n : nat) : 0 <= a -> l2norm (a :: zeros n) = a.
Proof.
  intros Ha. unfold l2norm. cbn [map]. rewrite sum_cons.
  replace (sum (map (fun c => c * c) (zeros n))) with 0.
  - rewrite Rplus_0_r. apply sqrt_square, Ha.
  - symmetry. pose proof (l2norm_zeros n) as Hz. unfold l2norm in Hz.
    apply sqrt_eq_0 in Hz; [exact Hz | apply sum_sq_nonneg].
Qed.


Lemma dot_nonneg (a b : vec) :
  Forall (fun c => 0 <= c) a -> Forall (fun c => 0 <= c) b -> 0 <= dot a b.
Proof.
  intros Ha. revert b. unfold dot.
  induction Ha as [|x a Hx _ IH]; intros b Hb; [cbn; lra|].
  destruct Hb as [|y b Hy Hb]; [cbn; lra|].
  cbn [zip_with]. rewrite sum_cons. specialize (IH b Hb). nra.
Qed.

End Norms.

(** ** Traversals in the error monad *)

Lemma mapM_cons {A B : Type} (f : A → option B) (a : A) (l : list A) :
  mapM f (a :: l) = b ← f a; k ← mapM f l; Some (b :: k).
Proof. reflexivity. Qed.

Lemma mapM_pure {A B : Type} (f : A → B) (l : list A) :
  mapM (fun a => Some (f a)) l = Some (map f l).
Proof. apply mapM_Some, Forall2_fmap_r, Forall_Forall2_diag, Forall_true. done. Qed.

(** A step that succeeds on every element succeeds on the list. *)
Lemma mapM_total {A B : Type} (f : A → option B) (P : A → B → Prop) (l : list A) :
  Forall (fun a => ∃ b, f a = Some b ∧ P a b) l ->
  ∃ k, mapM f l = Some k ∧ Forall2 P l k.
Proof.
  induction 1 as [|a l (b & Hb & HP) _ (k & Hk & HF)].
  - exists []. by split.
  - exists (b :: k). rewrite mapM_cons, Hb, Hk. split; [reflexivity | by constructor].
Qed.

Section MapM.
Context {A B C : Type}.

(** Two passes over a batch are one pass of the composed step. *)
Lemma mapM_bind_fuse (f : A → option B) (g : B → option C) (l : list A) :
  mapM f l ≫= mapM g = mapM (fun a => f a ≫= g) l.
Proof.
  induction l as [|a l IH]; [reflexivity|].
  rewrite !mapM_cons. destruct (f a) as [b|]; cbn; [|reflexivity].
  rewrite <- IH. destruct (mapM f l) as [k|]; cbn.
  - reflexivity.
  - destruct (g b); reflexivity.
Qed.

Lemma mapM_fmap_fuse (f : A → option B) (h : B → C) (l : list A) :
  map h <$> mapM f l = mapM (fun a => h <$> f a) l.
Proof.
  induction l as [|a l IH]; [reflexivity|].
  rewrite !mapM_cons. destruct (f a) as [b|]; cbn; [|reflexivity].
  rewrite <- IH. destruct (mapM f l); reflexivity.
Qed.

Lemma mapM_map (f : B → option C) (h : A → B) (l : list A) :
  mapM f (map h l) = mapM (fun a => f (h a)) l.
Proof.
  induction l as [|a l IH]; [reflexivity|].
  cbn [map]. rewrite !mapM_cons, IH. reflexivity.
Qed.

(** A check of the whole batch is a check of every sample. *)
Lemma mapM_guard (P : A → Prop) `{!∀ a, Decision (P a)}
      (f : A → option B) (l : list A) :
  (if decide (Forall P l) then mapM f l else None)
  = mapM (fun a => if decide (P a) then f a else None) l.
Proof.
  induction l as [|a l IH]; [by rewrite decide_True|].
  rewrite !mapM_cons, <- IH.
  destruct (decide (P a)) as [Ha|Ha].
  - destruct (decide (Forall P l)) as [Hl|Hl].
    + rewrite decide_True by (by constructor). reflexivity.
    + rewrite decide_False by (by inversion 1). by destruct (f a).
  - rewrite decide_False by (by inversion 1). reflexivity.
Qed.

End MapM.

(** ** The normalization line *)

Section Normalizer.
Import Embedding.
Local Open Scope R_scope.

(** The broadcast division works row by row. *)
Lemma normalize_line_rows (eps : R) (x : tensor2) :
  normalize_line eps x = map (l2_normalize eps) x.
Proof.
  unfold normalize_line, div_broadcast, add_scalar, norm_dim1_keepdim.
  induction x as [|v x IH]; [reflexivity|].
  cbn [map zip_with]. unfold fmap in IH. rewrite IH. reflexivity.
Qed.

Lemma denominator_pos (eps : R) (v : vec) : 0 < eps -> 0 < l2norm v + eps.
Proof. intros He. pose proof (l2norm_nonneg v). lra. Qed.


Lemma eps_rec_pos : 0 < eps_rec.
Proof. unfold eps_rec. lra. Qed.

Lemma l2_normalize_length (eps : R) (v : vec) :
  length (l2_normalize eps v) = length v.
Proof. apply length_map. Qed.


Lemma normalize_zeros (eps : R) (n : nat) : l2_normalize eps (zeros n) = zeros n.
Proof.
  unfold l2_normalize, zeros. rewrite fmap_replicate. f_equal.
  unfold Rdiv. ring.
Qed.

Lemma normalize_single (eps a : R) (n : nat) :
  0 <= a -> l2_normalize eps (a :: zeros n) = (a / (a + eps)) :: zeros n.
Proof.
  intros Ha. unfold l2_normalize. rewrite l2norm_single by exact Ha.
  cbn [map]. f_equal. unfold zeros. rewrite fmap_replicate. f_equal.
  unfold Rdiv. ring.
Qed.




End Normalizer.

(** ** [SimpleSpeakerEmbedding.forward], frame by frame *)

#[local] Instance option_bind_pointwise {A B : Type} :
  Proper (pointwise_relation A eq ==> eq ==> eq) (@mbind option _ A B).
Proof. intros f g Hfg mx ? <-. destruct mx; cbn; [apply Hfg | reflexivity]. Qed.

Section SileroFrames.
Import Embedding.

Lemma conv_stage_batch (c : Conv1d) (y : tensor3) :
  relu3 <$> conv1d c y = mapM (Spec.conv_stage c) y.
Proof. unfold relu3, conv1d, Spec.conv_stage. apply mapM_fmap_fuse. Qed.

Lemma pool_squeeze_batch (y : tensor3) :
  squeeze_last (adaptive_avg_pool1 y) = map Spec.global_avg_pool y.
Proof.
  unfold squeeze_last, adaptive_avg_pool1, Spec.global_avg_pool.
  rewrite map_map. apply map_ext. intros f. rewrite map_map. reflexivity.
Qed.

Lemma mapM_chain {A B C D : Type}
      (f : A → option B) (g : B → option C) (k : list C → option D) (l : list A) :
  mapM f l ≫= (fun y => mapM g y ≫= k) = mapM (fun a => f a ≫= g) l ≫= k.
Proof. rewrite <- mapM_bind_fuse. by destruct (mapM f l). Qed.

Lemma mapM_then_pure {A B C : Type} (f : A → option B) (h : B → C) (l : list A) :
  mapM f l ≫= (fun y => Some (map h y)) = mapM (fun a => h <$> f a) l.
Proof. rewrite <- mapM_fmap_fuse. by destruct (mapM f l). Qed.

(** The batch-level statements of [forward] act on every waveform of the
    batch independently: three stages, pooling, projection, and the
    additive-epsilon normalization. *)
Lemma forward_cnn_per_frame (m : Silero.SimpleSpeakerEmbedding) (x : tensor2) :
  Silero.forward m x
  = mapM (fun w => l2_normalize eps_cnn <$> Spec.encode_cnn m w) x.
Proof.
  unfold Silero.forward.
  change (fun x4 : tensor2 => Some (div_broadcast x4 (add_scalar (norm_dim1_keepdim x4) 1e-8)))
    with (fun x4 : tensor2 => Some (normalize_line eps_cnn x4)).
  setoid_rewrite normalize_line_rows.
  setoid_rewrite conv_stage_batch.
  setoid_rewrite pool_squeeze_batch.
  unfold linear, unsqueeze1.
  setoid_rewrite mapM_map.
  rewrite mapM_chain.
  rewrite mapM_chain.
  rewrite mapM_chain.
  rewrite mapM_then_pure.
  apply mapM_ext. intros w. unfold Spec.encode_cnn.
  destruct (Spec.conv_stage (Silero.conv1 m) [w]) as [f1|]; cbn; [|reflexivity].
  destruct (Spec.conv_stage (Silero.conv2 m) f1) as [f2|]; cbn; [|reflexivity].
  destruct (Spec.conv_stage (Silero.conv3 m) f2) as [f3|]; cbn; reflexivity.
Qed.

End SileroFrames.

(** ** Shapes through the convolution stack *)

Section SileroShapes.

Lemma conv_shape_ok_spec (c : Conv1d) (cin cout k s : nat) :
  conv_shape_ok c cin cout k s = true ->
  in_channels c = cin ∧ kernel_size c = k ∧ stride c = s
  ∧ length (conv_weight c) = cout ∧ length (conv_bias c) = cout.
Proof.
  unfold conv_shape_ok. rewrite !andb_true_iff, !bool_decide_eq_true.
  tauto.
Qed.

Lemma linear_shape_ok_spec (l : Linear) (fin fout : nat) :
  linear_shape_ok l fin fout = true ->
  in_features l = fin ∧ length (lin_weight l) = fout ∧ length (lin_bias l) = fout.
Proof.
  unfold linear_shape_ok. rewrite !andb_true_iff, !bool_decide_eq_true.
  tauto.
Qed.

Lemma shape2_hd (r c : nat) (x : tensor2) :
  0 < r -> shape2 r c x -> length (hd [] x) = c.
Proof.
  intros Hr [Hlen Hrows]. destruct x as [|row x]; cbn in *; [lia|].
  by inversion Hrows.
Qed.

Lemma shape2_singleton (w : vec) : shape2 1 (length w) [w].
Proof. split; [reflexivity | by repeat constructor]. Qed.

(** A stage succeeds as soon as the kernel fits, and its output has one
    row per filter and [(L - k) / s + 1] time steps. *)
Lemma conv_stage_shape (c : Conv1d) (cin cout k s L : nat) (x : tensor2) :
  conv_shape_ok c cin cout k s = true ->
  0 < cin -> shape2 cin L x -> k ≤ L ->
  ∃ y, Spec.conv_stage c x = Some y ∧ shape2 cout (conv1d_out_len L k s) y.
Proof.
  intros Hc Hcin Hx HkL.
  apply conv_shape_ok_spec in Hc as (Hin & Hk & Hs & Hw & Hb).
  pose proof (shape2_hd _ _ _ Hcin Hx) as HL. destruct Hx as [Hlen _].
  unfold Spec.conv_stage, conv1d_sample. rewrite HL, Hin, Hk, Hs.
  rewrite decide_True by (split; [exact Hlen | exact HkL]).
  eexists. split; [reflexivity|]. split.
  - rewrite length_map, length_zip_with. lia.
  - apply Forall_fmap, Forall_forall. intros row Hrow.
    apply elem_of_zip_with in Hrow as (filt & b & -> & _ & _).
    cbn. by rewrite !length_map, length_seq.
Qed.

(** A stage raises when the kernel is longer than the input. *)
Lemma conv_stage_short (c : Conv1d) (cin cout k s L : nat) (x : tensor2) :
  conv_shape_ok c cin cout k s = true ->
  0 < cin -> shape2 cin L x -> L < k ->
  Spec.conv_stage c x = None.
Proof.
  intros Hc Hcin Hx HkL.
  apply conv_shape_ok_spec in Hc as (Hin & Hk & Hs & Hw & Hb).
  pose proof (shape2_hd _ _ _ Hcin Hx) as HL.
  unfold Spec.conv_stage, conv1d_sample. rewrite HL, Hk.
  rewrite decide_False by lia. reflexivity.
Qed.

Lemma linear_row_shape (l : Linear) (fin fout : nat) (v : vec) :
  linear_shape_ok l fin fout = true ->
  length v = fin ->
  ∃ e, linear_row l v = Some e ∧ length e = fout.
Proof.
  intros Hl Hv. apply linear_shape_ok_spec in Hl as (Hin & Hw & Hb).
  unfold linear_row. rewrite decide_True by congruence.
  eexists. split; [reflexivity|]. rewrite length_zip_with. lia.
Qed.

Lemma global_avg_pool_length (x : tensor2) :
  length (Spec.global_avg_pool x) = length x.
Proof. apply length_map. Qed.

Lemma init_ok_spec (m : Silero.SimpleSpeakerEmbedding) :
  Silero.init_ok m = true ->
  conv_shape_ok (Silero.conv1 m) 1 32 80 16 = true
  ∧ conv_shape_ok (Silero.conv2 m) 32 64 3 2 = true
  ∧ conv_shape_ok (Silero.conv3 m) 64 128 3 2 = true
  ∧ linear_shape_ok (Silero.fc m) 128 128 = true.
Proof. unfold Silero.init_ok. rewrite !andb_true_iff. tauto. Qed.

Lemma lens_176 (L : nat) : 176 ≤ L -> 7 ≤ len1 L ∧ 3 ≤ len2 L ∧ 1 ≤ len3 L.
Proof.
  intros HL. unfold len3, len2, len1, conv1d_out_len.
  assert (6 ≤ (L - 80) / 16) by (apply (Nat.div_le_lower_bound _ 16 6); lia).
  assert (2 ≤ ((L - 80) / 16 + 1 - 3) / 2)
    by (apply (Nat.div_le_lower_bound _ 2 2); lia).
  lia.
Qed.

Lemma lens_below_176 (L : nat) :
  80 ≤ L -> L < 176 -> len1 L < 3 ∨ (3 ≤ len1 L ∧ len2 L < 3).
Proof.
  intros H80 H176. unfold len2, len1, conv1d_out_len.
  assert ((L - 80) / 16 < 6) by (apply Nat.Div0.div_lt_upper_bound; lia).
  destruct (decide ((L - 80) / 16 + 1 < 3)) as [|Hge]; [by left|right].
  split; [lia|].
  assert (((L - 80) / 16 + 1 - 3) / 2 < 2)
    by (apply Nat.Div0.div_lt_upper_bound; lia).
  lia.
Qed.

(** The per-frame encoder on a waveform of at least 176 samples. *)
Lemma encode_cnn_stages (m : Silero.SimpleSpeakerEmbedding) (w : vec) :
  Silero.init_ok m = true -> 176 ≤ length w ->
  ∃ f1 f2 f3 e,
    Spec.conv_stage (Silero.conv1 m) [w] = Some f1
    ∧ shape2 32 (len1 (length w)) f1
    ∧ Spec.conv_stage (Silero.conv2 m) f1 = Some f2
    ∧ shape2 64 (len2 (length w)) f2
    ∧ Spec.conv_stage (Silero.conv3 m) f2 = Some f3
    ∧ shape2 128 (len3 (length w)) f3
    ∧ linear_row (Silero.fc m) (Spec.global_avg_pool f3) = Some e
    ∧ length e = 128
    ∧ Spec.encode_cnn m w = Some e.
Proof.
  intros Hm HL. apply init_ok_spec in Hm as (H1 & H2 & H3 & Hfc).
  destruct (lens_176 _ HL) as (Hl1 & Hl2 & Hl3).
  destruct (conv_stage_shape _ 1 32 80 16 (length w) [w] H1)
    as (f1 & Hf1 & S1); [lia | apply shape2_singleton | lia |].
  fold (len1 (length w)) in S1.
  destruct (conv_stage_shape _ 32 64 3 2 (len1 (length w)) f1 H2)
    as (f2 & Hf2 & S2); [lia | exact S1 | lia |].
  fold (len2 (length w)) in S2.
  destruct (conv_stage_shape _ 64 128 3 2 (len2 (length w)) f2 H3)
    as (f3 & Hf3 & S3); [lia | exact S2 | lia |].
  fold (len3 (length w)) in S3.
  destruct (linear_row_shape _ _ _ (Spec.global_avg_pool f3) Hfc) as (e & He & Hlen).
  { rewrite global_avg_pool_length. apply S3. }
  exists f1, f2, f3, e. unfold Spec.encode_cnn.
  rewrite Hf1; cbn. rewrite Hf2; cbn. rewrite Hf3; cbn. auto 10.
Qed.

(** Below 176 samples one of the three kernels no longer fits. *)
Lemma encode_cnn_short (m : Silero.SimpleSpeakerEmbedding) (w : vec) :
  Silero.init_ok m = true -> length w < 176 -> Spec.encode_cnn m w = None.
Proof.
  intros Hm HL. apply init_ok_spec in Hm as (H1 & H2 & H3 & Hfc).
  unfold Spec.encode_cnn.
  destruct (decide (length w < 80)) as [Hlt|Hge].
  { rewrite (conv_stage_short _ 1 32 80 16 (length w) [w] H1);
      [reflexivity | lia | apply shape2_singleton | exact Hlt]. }
  destruct (conv_stage_shape _ 1 32 80 16 (length w) [w] H1)
    as (f1 & -> & S1); [lia | apply shape2_singleton | lia |].
  fold (len1 (length w)) in S1. cbn.
  destruct (lens_below_176 (length w)) as [Hs|[Hs1 Hs2]]; [lia | exact HL | |].
  { rewrite (conv_stage_short _ 32 64 3 2 (len1 (length w)) f1 H2);
      [reflexivity | lia | exact S1 | exact Hs]. }
  destruct (conv_stage_shape _ 32 64 3 2 (len1 (length w)) f1 H2)
    as (f2 & -> & S2); [lia | exact S1 | exact Hs1 |].
  fold (len2 (length w)) in S2. cbn.
  rewrite (conv_stage_short _ 64 128 3 2 (len2 (length w)) f2 H3);
    [reflexivity | lia | exact S2 | exact Hs2].
Qed.

End SileroShapes.

(** ** The recurrent stack *)

Section Recurrent.
Import Embedding.

Lemma scan_length (ly : LSTMLayer) (H : nat) (xs : list vec) (hc : vec * vec) :
  length (lstm_scan ly H hc xs).1 = length xs.
Proof.
  revert hc. induction xs as [|x xs IH]; intros hc; [reflexivity|].
  cbn. by rewrite IH.
Qed.

(** The final hidden state of a layer is the last entry of its output
    sequence. *)
Lemma scan_last (ly : LSTMLayer) (H : nat) (xs : list vec) (hc : vec * vec) :
  xs ≠ [] ->
  last (lstm_scan ly H hc xs).1 = Some (lstm_scan ly H hc xs).2.1.
Proof.
  revert hc. induction xs as [|x xs IH]; intros hc Hne; [done|].
  destruct xs as [|x' xs]; [reflexivity|].
  specialize (IH (lstm_cell ly H x hc) ltac:(done)).
  cbn [lstm_scan fst snd] in *. rewrite last_cons_cons. exact IH.
Qed.

Lemma scan_nonempty (ly : LSTMLayer) (H : nat) (xs : list vec) (hc : vec * vec) :
  xs ≠ [] -> (lstm_scan ly H hc xs).1 ≠ [].
Proof.
  intros Hne Heq. apply (f_equal length) in Heq.
  rewrite scan_length in Heq. by destruct xs.
Qed.

Lemma stack_hidden_nonempty (H : nat) (lys : list LSTMLayer) (x : tensor3) :
  lys ≠ [] -> (lstm_stack H lys x).2.1 ≠ [].
Proof. by destruct lys. Qed.

Lemma last_cons_nonempty {A : Type} (a : A) (l : list A) :
  l ≠ [] -> last (a :: l) = last l.
Proof. destruct l; [done|]. intros _. apply last_cons_cons. Qed.

(** [hidden[-1]]: for every sequence of the batch, the last entry of the
    final layer's output sequence. *)
Lemma stack_hidden_last (H : nat) (lys : list LSTMLayer) (x : tensor3) :
  lys ≠ [] -> Forall (fun s => s ≠ []) x ->
  last (lstm_stack H lys x).2.1
  = mapM (fun s => last (Spec.run_layers H lys s)) x.
Proof.
  revert x. induction lys as [|ly rest IH]; intros x Hne Hx; [done|].
  destruct rest as [|ly2 rest].
  - cbn [lstm_stack Spec.run_layers fst snd last].
    rewrite map_map. symmetry.
    rewrite <- mapM_pure. apply Forall_mapM_ext.
    eapply Forall_impl; [exact Hx|]. intros s Hs. cbn.
    by apply scan_last.
  - change (lstm_stack H (ly :: ly2 :: rest) x).2.1
      with (map (fun s => s.2.1) (map (lstm_scan ly H (zeros H, zeros H)) x)
            :: (lstm_stack H (ly2 :: rest)
                  (map fst (map (lstm_scan ly H (zeros H, zeros H)) x))).2.1).
    rewrite last_cons_nonempty by (by apply stack_hidden_nonempty).
    rewrite IH; [|done|].
    + rewrite map_map, mapM_map. reflexivity.
    + rewrite map_map. apply Forall_fmap.
      eapply Forall_impl; [exact Hx|]. intros s Hs. by apply scan_nonempty.
Qed.

(** [out]: for every sequence of the batch, the final layer's output
    sequence. *)
Lemma stack_out (H : nat) (lys : list LSTMLayer) (x : tensor3) :
  (lstm_stack H lys x).1 = map (Spec.run_layers H lys) x.
Proof.
  revert x. induction lys as [|ly rest IH]; intros x.
  - cbn. by rewrite map_id.
  - cbn [lstm_stack fst]. rewrite IH, !map_map. reflexivity.
Qed.

(** The batch-level statements of the wrapper's [forward] act on every
    mel sequence independently. *)
Lemma forward_rec_per_frame (m : Resemblyzer.ResemblyzerWrapper) (mels : tensor3) :
  lstm_layers (Resemblyzer.lstm m) ≠ [] ->
  Resemblyzer.forward m mels
  = mapM (fun s => l2_normalize eps_rec <$> Spec.encode_rec m s) mels.
Proof.
  intros Hlys.
  set (P := fun s : tensor2 =>
              s ≠ [] ∧ Forall (fun fr => length fr = input_size (Resemblyzer.lstm m)) s).
  set (F := fun s : tensor2 =>
              l2_normalize eps_rec <$>
                (last (Spec.run_layers (hidden_size (Resemblyzer.lstm m))
                         (lstm_layers (Resemblyzer.lstm m)) s)
                 ≫= fun h => map relu <$> linear_row (Resemblyzer.linear m) h)).
  transitivity (mapM (fun s => if decide (P s) then F s else None) mels).
  2:{ apply mapM_ext. intros s. unfold Spec.encode_rec, P, F.
      by destruct (decide _). }
  rewrite <- mapM_guard.
  unfold Resemblyzer.forward, lstm.
  destruct (decide (Forall P mels)) as [HP|HP].
  - rewrite decide_True by exact HP. cbn [mbind option_bind].
    destruct (lstm_stack _ _ mels) as [out [hidden cn]] eqn:Hst.
    assert (Hh : last hidden = mapM (fun s => last (Spec.run_layers
                    (hidden_size (Resemblyzer.lstm m))
                    (lstm_layers (Resemblyzer.lstm m)) s)) mels).
    { replace hidden with (lstm_stack (hidden_size (Resemblyzer.lstm m))
                             (lstm_layers (Resemblyzer.lstm m)) mels).2.1
        by (by rewrite Hst).
      apply stack_hidden_last; [exact Hlys|].
      eapply Forall_impl; [exact HP|]. by intros s [? _]. }
    rewrite Hh.
    change (fun raw : tensor2 =>
              Some (div_broadcast raw (add_scalar (norm_dim1_keepdim raw) 1e-5)))
      with (fun raw : tensor2 => Some (normalize_line eps_rec raw)).
    setoid_rewrite normalize_line_rows.
    unfold relu2, linear. setoid_rewrite mapM_fmap_fuse.
    rewrite mapM_chain, mapM_then_pure. reflexivity.
  - rewrite decide_False by exact HP. reflexivity.
Qed.

End Recurrent.

(** ** Shapes through the recurrent stack *)

Section RecurrentShapes.

Lemma lstm_layer_ok_spec (H nin : nat) (ly : LSTMLayer) :
  lstm_layer_ok H nin ly = true ->
  length (weight_ih ly) = 4 * H ∧ length (weight_hh ly) = 4 * H
  ∧ length (bias_ih ly) = 4 * H ∧ length (bias_hh ly) = 4 * H.
Proof.
  unfold lstm_layer_ok. rewrite !andb_true_iff, !bool_decide_eq_true. tauto.
Qed.

Lemma chunk_length (H i : nat) (v : vec) :
  length v = 4 * H -> i < 4 -> length (chunk H i v) = H.
Proof.
  intros Hv Hi. unfold chunk. rewrite length_take, length_drop. nia.
Qed.

(** One step keeps both state vectors at [H] entries. *)
Lemma cell_shape (H nin : nat) (ly : LSTMLayer) (x : vec) (hc : vec * vec) :
  lstm_layer_ok H nin ly = true -> length hc.2 = H ->
  length (lstm_cell ly H x hc).1 = H ∧ length (lstm_cell ly H x hc).2 = H.
Proof.
  intros Hly Hc. apply lstm_layer_ok_spec in Hly as (Hih & Hhh & Hbi & Hbh).
  unfold lstm_cell. cbn [fst snd].
  set (gates := zip_with Rplus _ _).
  assert (Hg : length gates = 4 * H).
  { unfold gates, matvec. rewrite !length_zip_with, !length_map. lia. }
  repeat rewrite ?length_zip_with, ?length_map, ?(chunk_length H _ gates Hg) by lia.
  lia.
Qed.

Lemma scan_final_shape (H nin : nat) (ly : LSTMLayer) (xs : list vec) (hc : vec * vec) :
  lstm_layer_ok H nin ly = true -> xs ≠ [] -> length hc.2 = H ->
  length (lstm_scan ly H hc xs).2.1 = H.
Proof.
  intros Hly. revert hc. induction xs as [|x xs IH]; intros hc Hne Hc; [done|].
  destruct (cell_shape H nin ly x hc Hly Hc) as [Hh' Hc'].
  destruct xs as [|x' xs]; [exact Hh'|].
  cbn [lstm_scan snd]. apply IH; done.
Qed.

Lemma zeros_length (n : nat) : length (zeros n) = n.
Proof. apply length_replicate. Qed.

(** After at least one layer and at least one frame, the final layer's
    last hidden state exists and has [H] entries. *)
Lemma run_layers_last (H nin : nat) (lys : list LSTMLayer) (s : tensor2) :
  lys ≠ [] -> lstm_layers_ok H nin lys = true -> s ≠ [] ->
  ∃ h, last (Spec.run_layers H lys s) = Some h ∧ length h = H.
Proof.
  revert nin s. induction lys as [|ly rest IH]; intros nin s Hne Hok Hs; [done|].
  cbn [lstm_layers_ok] in Hok. apply andb_true_iff in Hok as [Hly Hrest].
  destruct rest as [|ly2 rest].
  - cbn [Spec.run_layers]. eexists. split; [by apply scan_last|].
    eapply scan_final_shape; [exact Hly | exact Hs | apply zeros_length].
  - cbn [Spec.run_layers]. apply (IH H); [done | exact Hrest |].
    by apply scan_nonempty.
Qed.

Lemma lstm_shape_ok_spec (m : LSTM) (nin H : nat) :
  lstm_shape_ok m nin H = true ->
  input_size m = nin ∧ hidden_size m = H ∧ lstm_layers m ≠ []
  ∧ lstm_layers_ok H nin (lstm_layers m) = true.
Proof.
  unfold lstm_shape_ok. rewrite !andb_true_iff, !bool_decide_eq_true.
  intros [[[? ?] Hne] ?]. repeat split; try done. by destruct (lstm_layers m).
Qed.

Lemma loaded_ok_spec (m : Resemblyzer.ResemblyzerWrapper) :
  Resemblyzer.loaded_ok m = true ->
  input_size (Resemblyzer.lstm m) = 40
  ∧ lstm_layers (Resemblyzer.lstm m) ≠ []
  ∧ lstm_layers_ok (hidden_size (Resemblyzer.lstm m)) 40
      (lstm_layers (Resemblyzer.lstm m)) = true
  ∧ linear_shape_ok (Resemblyzer.linear m)
      (hidden_size (Resemblyzer.lstm m)) 256 = true.
Proof.
  unfold Resemblyzer.loaded_ok. rewrite andb_true_iff. intros [Hl Hlin].
  apply lstm_shape_ok_spec in Hl as (? & _ & ? & ?). done.
Qed.

Lemma relu_nonneg (c : R) : (0 <= relu c)%R.
Proof. apply Rmax_l. Qed.

(** The per-frame encoder on a sequence of at least one 40-channel
    frame. *)
Lemma encode_rec_steps (m : Resemblyzer.ResemblyzerWrapper) (frames : tensor2) :
  Resemblyzer.loaded_ok m = true ->
  frames ≠ [] -> Forall (fun fr => length fr = 40) frames ->
  ∃ h p,
    last (Spec.run_layers (hidden_size (Resemblyzer.lstm m))
            (lstm_layers (Resemblyzer.lstm m)) frames) = Some h
    ∧ length h = hidden_size (Resemblyzer.lstm m)
    ∧ linear_row (Resemblyzer.linear m) h = Some p
    ∧ length p = 256
    ∧ Spec.encode_rec m frames = Some (map relu p).
Proof.
  intros Hm Hne Hfr. apply loaded_ok_spec in Hm as (Hin & Hlys & Hok & Hlin).
  destruct (run_layers_last _ _ _ frames Hlys Hok Hne) as (h & Hlast & Hh).
  destruct (linear_row_shape _ _ _ h Hlin Hh) as (p & Hp & Hlen).
  exists h, p. repeat split; try done.
  unfold Spec.encode_rec. rewrite Hin.
  rewrite decide_True by done. rewrite Hlast. cbn. by rewrite Hp.
Qed.

(** A frame without 40 channels, or a sequence without frames, is
    refused. *)
Lemma encode_rec_refused (m : Resemblyzer.ResemblyzerWrapper) (frames : tensor2) :
  Resemblyzer.loaded_ok m = true ->
  frames = [] ∨ ¬ Forall (fun fr => length fr = 40) frames ->
  Spec.encode_rec m frames = None.
Proof.
  intros Hm Hbad. apply loaded_ok_spec in Hm as (Hin & _).
  unfold Spec.encode_rec. rewrite Hin.
  rewrite decide_False; [reflexivity|]. intros [? ?]. by destruct Hbad.
Qed.

End RecurrentShapes.

(** ** The concrete parameter sets *)

Section ExampleModels.
Import Embedding Examples.
Local Open Scope R_scope.

Lemma dot_zeros_r (v : vec) (n : nat) : dot v (zeros n) = 0.
Proof.
  unfold dot, zeros. revert n. induction v as [|a v IH]; intros n; [reflexivity|].
  destruct n as [|n]; [reflexivity|].
  cbn [replicate zip_with]. rewrite sum_cons, IH. lra.
Qed.

(** With zero weights the projection returns its bias. *)
Lemma linear_bias_row (fin : nat) (b v : vec) :
  length v = fin -> linear_row (linear_bias fin b) v = Some b.
Proof.
  intros Hv. unfold linear_row, linear_bias. cbn [in_features lin_weight lin_bias].
  rewrite decide_True by exact Hv. f_equal.
  rewrite zip_with_replicate_l by lia.
  rewrite dot_zeros_r. rewrite <- (list_fmap_id b) at 2.
  apply list_fmap_ext. intros _ c _. cbn. lra.
Qed.

Lemma silero_model_ok (b : vec) :
  length b = 128%nat -> Silero.init_ok (silero_model b) = true.
Proof.
  intros Hb. unfold Silero.init_ok, silero_model.
  cbn [Silero.conv1 Silero.conv2 Silero.conv3 Silero.fc].
  unfold linear_shape_ok, linear_bias. cbn [in_features out_features lin_weight lin_bias].
  rewrite Hb. vm_compute. reflexivity.
Qed.

Lemma rec_model_ok (b : vec) :
  length b = 256%nat -> Resemblyzer.loaded_ok (rec_model b) = true.
Proof.
  intros Hb. unfold Resemblyzer.loaded_ok, rec_model.
  cbn [Resemblyzer.lstm Resemblyzer.linear hidden_size].
  unfold linear_shape_ok, linear_bias. cbn [in_features out_features lin_weight lin_bias].
  rewrite Hb. vm_compute. reflexivity.
Qed.

Lemma encode_cnn_silero_model (b w : vec) :
  length b = 128%nat -> 176 ≤ length w ->
  Spec.encode_cnn (silero_model b) w = Some b.
Proof.
  intros Hb Hw.
  destruct (encode_cnn_stages (silero_model b) w (silero_model_ok b Hb) Hw)
    as (f1 & f2 & f3 & e & _ & _ & _ & _ & _ & S3 & Hlin & _ & ->).
  rewrite <- Hlin. cbn [silero_model Silero.fc].
  apply linear_bias_row. rewrite global_avg_pool_length. apply S3.
Qed.

Lemma relu_zeros (n : nat) : map relu (zeros n) = zeros n.
Proof.
  unfold zeros. rewrite fmap_replicate. f_equal.
  unfold relu. apply Rmax_left. lra.
Qed.

Lemma encode_rec_rec_model (b : vec) (s : tensor2) :
  length b = 256%nat -> s ≠ [] -> Forall (fun fr => length fr = 40%nat) s ->
  Spec.encode_rec (rec_model b) s = Some (map relu b).
Proof.
  intros Hb Hs Hfr.
  destruct (encode_rec_steps (rec_model b) s (rec_model_ok b Hb) Hs Hfr)
    as (h & p & _ & Hh & Hp & _ & ->).
  cbn [rec_model Resemblyzer.linear Resemblyzer.lstm hidden_size] in Hp, Hh.
  rewrite (linear_bias_row 256 b h Hh) in Hp. by inversion Hp.
Qed.

End ExampleModels.

(** * The claims *)

Section NormalizerClaims.
Import Embedding Examples.
Local Open Scope R_scope.

Lemma relu_unit (n : nat) : map relu (1 :: zeros n) = 1 :: zeros n.
Proof.
  cbn [map]. rewrite relu_zeros. f_equal. unfold relu. apply Rmax_right. lra.
Qed.

Lemma silent_mels_ok :
  silent_mels n_frames ≠ [] ∧ Forall (fun fr => length fr = 40%nat) (silent_mels n_frames).
Proof.
  split; [done|]. unfold silent_mels. apply Forall_replicate, zeros_length.
Qed.

(** The wrapper whose projection bias is the first unit vector, on one
    silent mel sequence: the raw embedding is that unit vector. *)
Lemma rec_unit_raw :
  Spec.encode_rec (rec_model (1 :: zeros 255)) (silent_mels n_frames)
  = Some (1 :: zeros 255).
Proof.
  destruct silent_mels_ok as [Hne Hfr].
  rewrite encode_rec_rec_model; [by rewrite relu_unit | | exact Hne | exact Hfr].
  by rewrite length_cons, zeros_length.
Qed.

Lemma rec_unit_forward :
  Resemblyzer.forward (rec_model (1 :: zeros 255)) [silent_mels n_frames]
  = Some [(1 / (1 + eps_rec)) :: zeros 255].
Proof.
  rewrite forward_rec_per_frame by done.
  rewrite mapM_cons, rec_unit_raw. cbn -[l2_normalize zeros].
  rewrite normalize_single by lra. reflexivity.
Qed.

(** C1, as stated, fails: no single [eps] between 1e-8 and 1e-5 makes the
    clamped formula [v / max(|v|, eps)] agree with what the two forward
    passes compute.  The wrapper with unit bias on one silent 160 x 40
    sequence returns [1 / (1 + 1e-5)] in its first entry, where the clamped
    formula gives [1]. *)
Lemma normalizer_is_not_clamped :
  ¬ ∃ eps : R,
      1e-8 <= eps <= 1e-5
      ∧ (∀ m x, Silero.forward m x
                = mapM (fun w => Spec.normalize eps <$> Spec.encode_cnn m w) x)
      ∧ (∀ m mels, Resemblyzer.loaded_ok m = true ->
                   Resemblyzer.forward m mels
                   = mapM (fun s => Spec.normalize eps <$> Spec.encode_rec m s) mels).
Proof.
  intros (eps & [Hlo Hhi] & _ & Hrec).
  specialize (Hrec (rec_model (1 :: zeros 255)) [silent_mels n_frames]
                   (rec_model_ok _ ltac:(by rewrite length_cons, zeros_length))).
  rewrite rec_unit_forward, mapM_cons, rec_unit_raw in Hrec.
  cbn -[zeros l2norm] in Hrec.
  injection Hrec as Hhead _. revert Hhead.
  rewrite l2norm_single by lra. rewrite Rmax_left by lra.
  unfold eps_rec. intros Hhead. lra.
Qed.

(** C1, amended: each forward pass divides the raw embedding of every
    frame by its 2-norm plus an additive epsilon, [v / (|v| + eps)], with
    [eps = 1e-8] in the CNN and [eps = 1e-5] in the recurrent wrapper. *)
Theorem normalizer_formula :
  (∀ m x, Silero.forward m x
          = mapM (fun w => l2_normalize eps_cnn <$> Spec.encode_cnn m w) x)
  ∧ (∀ m mels, lstm_layers (Resemblyzer.lstm m) ≠ [] ->
               Resemblyzer.forward m mels
               = mapM (fun s => l2_normalize eps_rec <$> Spec.encode_rec m s) mels)
  ∧ (∀ eps v, l2_normalize eps v = map (fun c => c / (sqrt (dot v v) + eps)) v)
  ∧ eps_cnn = 1e-8 ∧ eps_rec = 1e-5.
Proof.
  split; [exact forward_cnn_per_frame|].
  split; [exact forward_rec_per_frame|].
  split; [|done].
  intros eps v. unfold l2_normalize, l2norm. by rewrite dot_self.
Qed.

Lemma normalizer_formula_witness :
  Resemblyzer.forward (rec_model (1 :: zeros 255)) [silent_mels n_frames]
  = mapM (fun s => l2_normalize eps_rec <$> Spec.encode_rec (rec_model (1 :: zeros 255)) s)
         [silent_mels n_frames].
Proof.
  apply (proj1 (proj2 normalizer_formula)). cbn. discriminate.
Defined.

End NormalizerClaims.

Section NormClaims.
Import Embedding Examples.
Local Open Scope R_scope.


(** The CNN with projection bias [b] on one waveform. *)
Lemma silero_model_forward (b w : vec) :
  length b = 128%nat -> 176 ≤ length w ->
  Silero.forward (silero_model b) [w] = Some [l2_normalize eps_cnn b].
Proof.
  intros Hb Hw. rewrite forward_cnn_per_frame, mapM_cons.
  rewrite encode_cnn_silero_model; [reflexivity | exact Hb | exact Hw].
Qed.








(** C8: the normalization line cannot fail.  Every denominator
    [|v| + eps] is strictly positive (also for the zero vector), every row
    keeps its length, each output entry times the denominator gives back
    the input entry, and a zero row stays zero. *)
Theorem normalization_total (eps : R) (x : tensor2) :
  0 < eps ->
  Forall (fun d => ∃ n, d = [n] ∧ 0 < n) (add_scalar (norm_dim1_keepdim x) eps)
  ∧ length (normalize_line eps x) = length x
  ∧ Forall2 (fun v a =>
               length a = length v
               ∧ Forall2 (fun c q => q * (l2norm v + eps) = c) v a)
            x (normalize_line eps x)
  ∧ (∀ n, normalize_line eps [zeros n] = [zeros n]).
Proof.
  intros He. split; [|split; [|split]].
  - unfold add_scalar, norm_dim1_keepdim. rewrite map_map.
    apply Forall_fmap, Forall_true. intros v. cbn.
    eexists. split; [reflexivity|]. by apply denominator_pos.
  - rewrite normalize_line_rows. apply length_map.
  - rewrite normalize_line_rows. apply Forall2_fmap_r, Forall_Forall2_diag, Forall_true.
    intros v. split; [apply l2_normalize_length|].
    unfold l2_normalize. apply Forall2_fmap_r, Forall_Forall2_diag, Forall_true.
    intros c. unfold compose. pose proof (denominator_pos eps v He) as Hd.
    field. lra.
  - intros n. rewrite normalize_line_rows. cbn [map]. by rewrite normalize_zeros.
Qed.

Lemma normalization_total_witness :
  0 < eps_cnn ∧ length (normalize_line eps_cnn [zeros 128]) = 1%nat.
Proof.
  split; [unfold eps_cnn; lra|].
  apply (normalization_total eps_cnn [zeros 128]). unfold eps_cnn; lra.
Defined.

End NormClaims.

Section SileroClaims.
Import Embedding Examples.

Lemma forward_cnn_ok (m : Silero.SimpleSpeakerEmbedding) (x : tensor2) (L : nat) :
  Silero.init_ok m = true -> 176 ≤ L -> Forall (fun w => length w = L) x ->
  ∃ raw, Silero.forward m x = Some (map (l2_normalize eps_cnn) raw)
         ∧ Forall2 (fun w e => Spec.encode_cnn m w = Some e ∧ length e = 128) x raw.
Proof.
  intros Hm HL Hx.
  destruct (mapM_total (Spec.encode_cnn m)
              (fun w e => Spec.encode_cnn m w = Some e ∧ length e = 128) x)
    as (raw & Hraw & HF).
  { eapply Forall_impl; [exact Hx|]. intros w Hw. cbn beta in Hw.
    destruct (encode_cnn_stages m w Hm)
      as (_ & _ & _ & e & _ & _ & _ & _ & _ & _ & _ & He & Henc); [lia|].
    by exists e. }
  exists raw. split; [|exact HF].
  rewrite forward_cnn_per_frame, <- mapM_fmap_fuse, Hraw. reflexivity.
Qed.

Lemma forward_cnn_short (m : Silero.SimpleSpeakerEmbedding) (x : tensor2) (L : nat) :
  Silero.init_ok m = true -> L < 176 -> x ≠ [] ->
  Forall (fun w => length w = L) x ->
  Silero.forward m x = None.
Proof.
  intros Hm HL Hne Hx. rewrite forward_cnn_per_frame. apply mapM_None.
  destruct x as [|w x]; [done|]. apply Exists_cons_hd.
  inversion Hx as [|? ? Hw _]; subst.
  by rewrite (encode_cnn_short m w Hm HL).
Qed.

Lemma lens_waveform :
  len1 waveform_samples = 1996 ∧ len2 waveform_samples = 997
  ∧ len3 waveform_samples = 498.
Proof. by vm_compute. Qed.

(** C4: on a batch of 32000-sample waveforms the CNN's [forward] is, for
    every waveform, three convolution-and-ReLU stages (32 x 1996, 64 x 997
    and 128 x 498 features), the mean over time of each of the 128
    channels, and one affine projection to 128 entries; the normalization
    line is then applied to that raw embedding. *)
Theorem cnn_encoder_structure (m : Silero.SimpleSpeakerEmbedding) (x : tensor2) :
  Silero.init_ok m = true ->
  Forall (fun w => length w = waveform_samples) x ->
  ∃ raw,
    Silero.forward m x = Some (normalize_line eps_cnn raw)
    ∧ Forall2
        (fun w e =>
           ∃ f1 f2 f3,
             Spec.conv_stage (Silero.conv1 m) [w] = Some f1 ∧ shape2 32 1996 f1
             ∧ Spec.conv_stage (Silero.conv2 m) f1 = Some f2 ∧ shape2 64 997 f2
             ∧ Spec.conv_stage (Silero.conv3 m) f2 = Some f3 ∧ shape2 128 498 f3
             ∧ linear_row (Silero.fc m) (Spec.global_avg_pool f3) = Some e
             ∧ length (Spec.global_avg_pool f3) = 128
             ∧ length e = 128
             ∧ Spec.encode_cnn m w = Some e)
        x raw.
Proof.
  intros Hm Hx.
  destruct (mapM_total (Spec.encode_cnn m)
    (fun w e =>
       ∃ f1 f2 f3,
         Spec.conv_stage (Silero.conv1 m) [w] = Some f1 ∧ shape2 32 1996 f1
         ∧ Spec.conv_stage (Silero.conv2 m) f1 = Some f2 ∧ shape2 64 997 f2
         ∧ Spec.conv_stage (Silero.conv3 m) f2 = Some f3 ∧ shape2 128 498 f3
         ∧ linear_row (Silero.fc m) (Spec.global_avg_pool f3) = Some e
         ∧ length (Spec.global_avg_pool f3) = 128
         ∧ length e = 128
         ∧ Spec.encode_cnn m w = Some e) x) as (raw & Hraw & HF).
  { eapply Forall_impl; [exact Hx|]. intros w Hw. cbn beta in Hw.
    destruct (encode_cnn_stages m w Hm) as
      (f1 & f2 & f3 & e & H1 & S1 & H2 & S2 & H3 & S3 & Hl & He & Henc).
    { rewrite Hw. unfold waveform_samples. lia. }
    destruct lens_waveform as (E1 & E2 & E3).
    rewrite Hw, ?E1, ?E2, ?E3 in S1, S2, S3.
    exists e. split; [exact Henc|]. exists f1, f2, f3.
    repeat split; try done; try apply S1; try apply S2; try apply S3.
    rewrite global_avg_pool_length. apply S3. }
  exists raw. split; [|exact HF].
  rewrite normalize_line_rows, forward_cnn_per_frame, <- mapM_fmap_fuse, Hraw.
  reflexivity.
Qed.

Lemma cnn_encoder_structure_witness :
  ∃ raw, Silero.forward (silero_model (zeros 128)) [silence waveform_samples]
         = Some (normalize_line eps_cnn raw) ∧ length raw = 1.
Proof.
  destruct (cnn_encoder_structure (silero_model (zeros 128))
              [silence waveform_samples]) as (raw & Hf & HF).
  - vm_compute. reflexivity.
  - constructor; [apply zeros_length | constructor].
  - exists raw. split; [exact Hf|]. symmetry. exact (Forall2_length _ _ _ HF).
Defined.

(** C10: [forward] never compares the waveform length with 32000.  Any
    batch of waveforms of one common length of at least 176 samples yields
    one 128-entry embedding per waveform, and 176 is the least such length:
    below it a kernel no longer fits and the call raises. *)
Theorem cnn_accepts_any_length
        (m : Silero.SimpleSpeakerEmbedding) (x : tensor2) (L : nat) :
  Silero.init_ok m = true ->
  Forall (fun w => length w = L) x ->
  (176 ≤ L ->
   ∃ e, Silero.forward m x = Some e ∧ length e = length x
        ∧ Forall (fun row => length row = 128) e)
  ∧ (L < 176 -> x ≠ [] -> Silero.forward m x = None).
Proof.
  intros Hm Hx. split.
  - intros HL. destruct (forward_cnn_ok m x L Hm HL Hx) as (raw & Hf & HF).
    eexists. split; [exact Hf|]. split.
    + rewrite length_map. symmetry. exact (Forall2_length _ _ _ HF).
    + apply Forall_fmap. clear Hf.
      induction HF as [|w e x raw [_ He] _ IH]; constructor.
      * cbn. rewrite l2_normalize_length. exact He.
      * apply IH. by inversion Hx.
  - intros HL Hne. by apply (forward_cnn_short m x L).
Qed.

End SileroClaims.

Section LengthClaims.
Import Embedding Examples.

Lemma cnn_accepts_any_length_witness :
  ∃ e, Silero.forward (silero_model (zeros 128)) [silence 176] = Some e
       ∧ length e = 1 ∧ Forall (fun row => length row = 128) e.
Proof.
  apply (cnn_accepts_any_length (silero_model (zeros 128)) [silence 176] 176).
  - vm_compute. reflexivity.
  - constructor; [apply zeros_length | constructor].
  - lia.
Defined.

(** C6, as stated, fails: a waveform of 176 samples is not the required
    32000, yet the CNN's [forward] raises nothing and returns a value, here
    (all parameters zero, silent input) the zero vector. *)
Lemma short_waveform_is_encoded :
  length (silence 176) ≠ waveform_samples
  ∧ Silero.init_ok (silero_model (zeros 128)) = true
  ∧ Silero.forward (silero_model (zeros 128)) [silence 176] = Some [zeros 128].
Proof.
  split; [|split].
  - unfold silence. rewrite zeros_length. unfold waveform_samples. lia.
  - apply silero_model_ok, zeros_length.
  - rewrite silero_model_forward.
    + by rewrite normalize_zeros.
    + apply zeros_length.
    + unfold silence. rewrite zeros_length. lia.
Qed.

Lemma forward_rec_ok (m : Resemblyzer.ResemblyzerWrapper) (mels : tensor3) :
  Resemblyzer.loaded_ok m = true ->
  Forall (fun s => s ≠ [] ∧ Forall (fun fr => length fr = 40) s) mels ->
  ∃ raw, Resemblyzer.forward m mels = Some (map (l2_normalize eps_rec) raw)
         ∧ Forall2 (fun s e =>
                      ∃ h p,
                        last (Spec.run_layers (hidden_size (Resemblyzer.lstm m))
                                (lstm_layers (Resemblyzer.lstm m)) s) = Some h
                        ∧ length h = hidden_size (Resemblyzer.lstm m)
                        ∧ linear_row (Resemblyzer.linear m) h = Some p
                        ∧ length p = 256
                        ∧ e = map relu p
                        ∧ Spec.encode_rec m s = Some e)
                   mels raw.
Proof.
  intros Hm Hx.
  destruct (mapM_total (Spec.encode_rec m)
    (fun s e =>
       ∃ h p,
         last (Spec.run_layers (hidden_size (Resemblyzer.lstm m))
                 (lstm_layers (Resemblyzer.lstm m)) s) = Some h
         ∧ length h = hidden_size (Resemblyzer.lstm m)
         ∧ linear_row (Resemblyzer.linear m) h = Some p
         ∧ length p = 256
         ∧ e = map relu p
         ∧ Spec.encode_rec m s = Some e) mels) as (raw & Hraw & HF).
  { eapply Forall_impl; [exact Hx|]. intros s [Hne Hfr].
    destruct (encode_rec_steps m s Hm Hne Hfr) as (h & p & H1 & H2 & H3 & H4 & H5).
    exists (map relu p). split; [exact H5|]. by exists h, p. }
  exists raw. split; [|exact HF].
  rewrite forward_rec_per_frame by (by apply loaded_ok_spec in Hm as (_ & ? & _)).
  rewrite <- mapM_fmap_fuse, Hraw. reflexivity.
Qed.

Lemma forward_rec_refused (m : Resemblyzer.ResemblyzerWrapper) (mels : tensor3) :
  Resemblyzer.loaded_ok m = true ->
  Exists (fun s => s = [] ∨ ¬ Forall (fun fr => length fr = 40) s) mels ->
  Resemblyzer.forward m mels = None.
Proof.
  intros Hm Hbad.
  rewrite forward_rec_per_frame by (by apply loaded_ok_spec in Hm as (_ & ? & _)).
  apply mapM_None. eapply Exists_impl; [exact Hbad|].
  intros s Hs. cbn. by rewrite (encode_rec_refused m s Hm Hs).
Qed.

(** C6, amended: neither [forward] checks for the traced shape.  The CNN
    raises exactly when the waveforms are shorter than 176 samples, the
    wrapper (given at least one frame) exactly when the frames do not have 40
    channels; every other length or frame count is encoded. *)
Theorem shape_errors :
  (∀ m x L, Silero.init_ok m = true -> x ≠ [] ->
            Forall (fun w => length w = L) x ->
            (Silero.forward m x = None ↔ L < 176))
  ∧ (∀ m mels T C, Resemblyzer.loaded_ok m = true -> mels ≠ [] -> 0 < T ->
                   Forall (shape2 T C) mels ->
                   (Resemblyzer.forward m mels = None ↔ C ≠ 40)).
Proof.
  split.
  - intros m x L Hm Hne Hx. split.
    + intros Hnone. destruct (decide (L < 176)) as [|Hge]; [done|].
      destruct (forward_cnn_ok m x L Hm ltac:(lia) Hx) as (raw & Hf & _).
      congruence.
    + intros HL. by apply (forward_cnn_short m x L).
  - intros m mels T C Hm Hne HT Hx. split.
    + intros Hnone ->.
      destruct (forward_rec_ok m mels Hm) as (raw & Hf & _); [|congruence].
      eapply Forall_impl; [exact Hx|]. intros s [Hlen Hrows].
      split; [|exact Hrows]. intros ->. cbn in Hlen. lia.
    + intros HC. apply forward_rec_refused; [exact Hm|].
      destruct mels as [|s mels]; [done|]. apply Exists_cons_hd. right.
      inversion Hx as [|? ? [Hlen Hrows] _]; subst.
      destruct s as [|fr s]; [cbn in HT; lia|].
      intros Hbad. inversion Hbad as [|? ? Hfr _]; subst.
      inversion Hrows as [|? ? Hfr' _]; subst. congruence.
Qed.

Lemma shape_errors_witness :
  Silero.forward (silero_model (zeros 128)) [silence 175] = None.
Proof.
  apply (proj1 shape_errors (silero_model (zeros 128)) [silence 175] 175).
  - vm_compute. reflexivity.
  - discriminate.
  - constructor; [apply zeros_length | constructor].
  - lia.
Defined.

End LengthClaims.

Section RecurrentClaims.
Import Embedding Examples.
Local Open Scope R_scope.

Lemma l2_normalize_nonneg (eps : R) (v : vec) :
  0 < eps -> Forall (fun c => 0 <= c) v -> Forall (fun c => 0 <= c) (l2_normalize eps v).
Proof.
  intros He Hv. unfold l2_normalize. apply Forall_fmap.
  eapply Forall_impl; [exact Hv|]. intros c Hc. cbn.
  pose proof (denominator_pos eps v He) as Hd.
  pose proof (Rinv_0_lt_compat _ Hd). unfold Rdiv. nra.
Qed.

Lemma relu_row_nonneg (p : vec) : Forall (fun c => 0 <= c) (map relu p).
Proof. apply Forall_fmap, Forall_true. intros c. apply relu_nonneg. Qed.

(** Whatever the parameters, a value returned by the wrapper's [forward]
    has no negative entry. *)
Lemma forward_rec_nonneg (m : Resemblyzer.ResemblyzerWrapper) (mels : tensor3)
      (e : tensor2) :
  Resemblyzer.forward m mels = Some e ->
  Forall (Forall (fun c => 0 <= c)) e.
Proof.
  unfold Resemblyzer.forward. intros Hf.
  destruct (lstm (Resemblyzer.lstm m) mels) as [[out [hidden cn]]|]; [|done].
  cbn in Hf. destruct (last hidden) as [h|]; [|done]. cbn in Hf.
  destruct (linear (Resemblyzer.linear m) h) as [p|]; [|done]. cbn in Hf.
  injection Hf as <-.
  change (Forall (Forall (fun c => 0 <= c)) (normalize_line eps_rec (relu2 p))).
  rewrite normalize_line_rows. unfold relu2.
  apply Forall_fmap, Forall_fmap, Forall_true. intros row. cbn.
  apply l2_normalize_nonneg; [apply eps_rec_pos | apply relu_row_nonneg].
Qed.

(** C5: on a batch of 160 x 40 mel sequences the wrapper's [forward] is,
    for every sequence, the recurrent stack run over the frames, the final
    layer's hidden state after the last frame ([hidden[-1]], which is also
    the last entry of [out]), one affine projection followed by a ReLU to
    256 entries; the normalization line is then applied to that raw
    embedding. *)
Theorem recurrent_encoder_structure
        (m : Resemblyzer.ResemblyzerWrapper) (mels : tensor3) :
  Resemblyzer.loaded_ok m = true ->
  Forall (shape2 n_frames mel_channels) mels ->
  ∃ out hidden cn hs raw,
    lstm (Resemblyzer.lstm m) mels = Some (out, (hidden, cn))
    ∧ out = map (Spec.run_layers (hidden_size (Resemblyzer.lstm m))
                   (lstm_layers (Resemblyzer.lstm m))) mels
    ∧ last hidden = Some hs
    ∧ Forall2 (fun o h => last o = Some h
                          ∧ length h = hidden_size (Resemblyzer.lstm m)) out hs
    ∧ Forall2 (fun h e => ∃ p, linear_row (Resemblyzer.linear m) h = Some p
                               ∧ e = map relu p ∧ length e = 256%nat) hs raw
    ∧ Forall2 (fun s e => Spec.encode_rec m s = Some e) mels raw
    ∧ Resemblyzer.forward m mels = Some (normalize_line eps_rec raw).
Proof.
  intros Hm Hx.
  assert (HP : Forall (fun s : tensor2 =>
                         s ≠ [] ∧ Forall (fun fr => length fr = 40%nat) s) mels).
  { eapply Forall_impl; [exact Hx|]. intros s [Hlen Hrows].
    split; [|exact Hrows]. intros ->. cbn in Hlen. unfold n_frames in Hlen. lia. }
  destruct (forward_rec_ok m mels Hm HP) as (raw & Hf & HF).
  pose proof (loaded_ok_spec m Hm) as (Hin & Hlys & _ & _).
  set (H := hidden_size (Resemblyzer.lstm m)) in *.
  set (lys := lstm_layers (Resemblyzer.lstm m)) in *.
  destruct (mapM_total (fun s => last (Spec.run_layers H lys s))
              (fun s h => last (Spec.run_layers H lys s) = Some h
                          ∧ length h = H) mels) as (hs & Hhs & HFh).
  { clear Hf. induction HF as [|s e mels raw (h & p & H1 & H2 & _) _ IH];
      constructor.
    - by exists h.
    - apply IH; by inversion Hx; inversion HP. }
  exists (lstm_stack H lys mels).1, (lstm_stack H lys mels).2.1,
         (lstm_stack H lys mels).2.2, hs, raw.
  split.
  { unfold lstm. fold H lys. rewrite Hin. rewrite decide_True by exact HP.
    by destruct (lstm_stack H lys mels) as [? [? ?]]. }
  split; [apply stack_out|].
  split.
  { rewrite stack_hidden_last; [exact Hhs | exact Hlys |].
    eapply Forall_impl; [exact HP|]. by intros s [? _]. }
  split; [rewrite stack_out; by apply Forall2_fmap_l|].
  split.
  { clear Hf Hhs Hx HP. revert hs HFh.
    induction HF as [|s e mels raw (h & p & H1 & H2 & H3 & H4 & H5 & _) _ IH];
      intros hs HFh; inversion HFh as [|? h' ? hs' [Hl _] HFh']; subst;
      constructor.
    - exists p. rewrite H1 in Hl. injection Hl as <-.
      split; [exact H3|]. split; [reflexivity|]. by rewrite length_map.
    - by apply IH. }
  split.
  { eapply Forall2_impl; [exact HF|]. by intros s e (h & p & _ & _ & _ & _ & _ & ?). }
  by rewrite normalize_line_rows.
Qed.

Lemma recurrent_encoder_structure_witness :
  ∃ raw, Resemblyzer.forward (rec_model (zeros 256)) [silent_mels n_frames]
         = Some (normalize_line eps_rec raw).
Proof.
  destruct (recurrent_encoder_structure (rec_model (zeros 256))
              [silent_mels n_frames]) as (out & hidden & cn & hs & raw & HH).
  - vm_compute. reflexivity.
  - constructor; [|constructor]. split.
    + apply length_replicate.
    + apply Forall_replicate, zeros_length.
  - exists raw. apply HH.
Defined.

(** C9: every entry of every embedding the wrapper returns is
    non-negative, because the projection passes through a ReLU and the
    normalization divides by a positive number; hence the score of any two
    embeddings of this variant is at least 0. *)
Theorem recurrent_embedding_nonneg
        (m : Resemblyzer.ResemblyzerWrapper) (mels1 mels2 : tensor3) :
  Resemblyzer.loaded_ok m = true ->
  Forall (fun s => s ≠ [] ∧ Forall (fun fr => length fr = 40%nat) s) mels1 ->
  Forall (fun s => s ≠ [] ∧ Forall (fun fr => length fr = 40%nat) s) mels2 ->
  ∃ e1 e2,
    Resemblyzer.forward m mels1 = Some e1
    ∧ Resemblyzer.forward m mels2 = Some e2
    ∧ Forall (Forall (fun c => 0 <= c)) e1
    ∧ Forall (Forall (fun c => 0 <= c)) e2
    ∧ (∀ a b, a ∈ e1 -> b ∈ e2 -> 0 <= Spec.score a b).
Proof.
  intros Hm H1 H2.
  destruct (forward_rec_ok m mels1 Hm H1) as (raw1 & Hf1 & _).
  destruct (forward_rec_ok m mels2 Hm H2) as (raw2 & Hf2 & _).
  pose proof (forward_rec_nonneg _ _ _ Hf1) as Hn1.
  pose proof (forward_rec_nonneg _ _ _ Hf2) as Hn2.
  eexists _, _. split; [exact Hf1|]. split; [exact Hf2|].
  split; [exact Hn1|]. split; [exact Hn2|].
  intros a b Ha Hb. apply dot_nonneg.
  - by apply (proj1 (Forall_forall _ _) Hn1).
  - by apply (proj1 (Forall_forall _ _) Hn2).
Qed.

Lemma recurrent_embedding_nonneg_witness :
  ∃ e1 e2,
    Resemblyzer.forward (rec_model (1 :: zeros 255)) [silent_mels n_frames] = Some e1
    ∧ Resemblyzer.forward (rec_model (1 :: zeros 255)) [silent_mels 7] = Some e2
    ∧ Forall (Forall (fun c => 0 <= c)) e1
    ∧ Forall (Forall (fun c => 0 <= c)) e2
    ∧ (∀ a b, a ∈ e1 -> b ∈ e2 -> 0 <= Spec.score a b).
Proof.
  apply (recurrent_embedding_nonneg (rec_model (1 :: zeros 255))
           [silent_mels n_frames] [silent_mels 7]).
  - apply rec_model_ok. by rewrite length_cons, zeros_length.
  - constructor; [|constructor]. split; [done|].
    apply Forall_replicate, zeros_length.
  - constructor; [|constructor]. split; [done|].
    apply Forall_replicate, zeros_length.
Defined.

End RecurrentClaims.

(** ** Calls of [forward] against the object store *)

Section RuntimeLemmas.
Import Runtime.
Context {P : Type}.

Lemma ext_refl (σ : state P) : ext σ σ.
Proof. by split. Qed.

Lemma ext_trans (σ1 σ2 σ3 : state P) : ext σ1 σ2 -> ext σ2 σ3 -> ext σ1 σ3.
Proof. intros [? ?] [? ?]. split; [congruence | by etrans]. Qed.

Lemma next_unused (σ : state P) : objs σ !! next σ = None.
Proof. apply not_elem_of_dom, is_fresh. Qed.

Lemma with_obj_new (o : obj) (σ : state P) :
  objs (with_obj o σ) !! next σ = Some o.
Proof. apply lookup_insert_eq. Qed.

Lemma ext_with_obj (o : obj) (σ0 σ : state P) :
  ext σ0 σ -> ext σ0 (with_obj o σ).
Proof.
  intros E. apply (ext_trans _ σ); [exact E|].
  split; [reflexivity|]. apply insert_subseteq, next_unused.
Qed.

Lemma ext_lookup (σ σ' : state P) (l : nat) (o : obj) :
  ext σ σ' -> objs σ !! l = Some o -> objs σ' !! l = Some o.
Proof. intros [_ Hsub] Hl. by eapply lookup_weaken. Qed.

Lemma with_obj_keeps (o o' : obj) (σ : state P) (l : nat) :
  objs σ !! l = Some o' -> objs (with_obj o σ) !! l = Some o'.
Proof. apply ext_lookup, ext_with_obj, ext_refl. Qed.

Lemma step_op1 {X A : Type} (rd : obj → option X) (f : P → X → option obj)
      (k : nat → St P A) (σ0 σ : state P) (l : nat) (o : obj) (t : X) :
  ext σ0 σ -> objs σ !! l = Some o -> rd o = Some t ->
  bind (op1 rd f l) k σ
  = match f (params σ0) t with
    | Some r => k (next σ) (with_obj r σ)
    | None => None
    end.
Proof.
  intros [Hp _] Hl Hrd. unfold bind, op1, alloc. rewrite Hl. cbn. rewrite Hrd, Hp.
  by destruct (f (params σ0) t).
Qed.

Lemma step_op2 {X Y A : Type} (rd1 : obj → option X) (rd2 : obj → option Y)
      (f : P → X → Y → option obj) (k : nat → St P A) (σ0 σ : state P)
      (l1 l2 : nat) (o1 o2 : obj) (t1 : X) (t2 : Y) :
  ext σ0 σ -> objs σ !! l1 = Some o1 -> rd1 o1 = Some t1 ->
  objs σ !! l2 = Some o2 -> rd2 o2 = Some t2 ->
  bind (op2 rd1 rd2 f l1 l2) k σ
  = match f (params σ0) t1 t2 with
    | Some r => k (next σ) (with_obj r σ)
    | None => None
    end.
Proof.
  intros [Hp _] Hl1 Hrd1 Hl2 Hrd2. unfold bind, op2, alloc.
  rewrite Hl1, Hl2. cbn. rewrite Hrd1, Hrd2, Hp.
  by destruct (f (params σ0) t1 t2).
Qed.

End RuntimeLemmas.

(** Symbolic execution of one operation whose argument is the object at
    [Hl]; [E] relates the initial store to the current one. *)
Ltac run1 rd E Hl :=
  match type of Hl with
  | Runtime.objs ?σ !! ?l = Some ?o =>
      rewrite (step_op1 rd _ _ _ σ l o _ E Hl eq_refl); cbn beta iota
  end.

(** Name the store after the allocation, keeping what is known of it. *)
Tactic Notation "advance" constr(E) ident(σn) ident(Hn) ident(En) :=
  match goal with
  | |- context [Runtime.with_obj ?r ?σ] =>
      pose proof (with_obj_new r σ) as Hn;
      pose proof (ext_with_obj r _ σ E) as En;
      generalize dependent (Runtime.with_obj r σ); intros σn Hn En
  end.

Tactic Notation "advance_keeping" ident(Hold) constr(E) ident(σn) ident(Hn) ident(En) :=
  match goal with
  | |- context [Runtime.with_obj ?r ?σ] =>
      pose proof (with_obj_new r σ) as Hn;
      pose proof (ext_with_obj r _ σ E) as En;
      apply (with_obj_keeps r) in Hold;
      generalize dependent (Runtime.with_obj r σ); intros σn Hold Hn En
  end.

Ltac simpl_opt := cbn [fmap option_fmap option_map mbind option_bind].


Section SileroRuns.
Import Runtime Embedding.

Lemma silero_run (σ : state Silero.SimpleSpeakerEmbedding) (x : nat) (t : tensor2) :
  objs σ !! x = Some (OT2 t) ->
  match Silero.forward (params σ) t with
  | Some out =>
      ∃ y σ', SileroRun.forward x σ = Some (y, σ') ∧ ext σ σ'
              ∧ objs σ' !! y = Some (OT2 out)
  | None => SileroRun.forward x σ = None
  end.
Proof.
  intros Hx. unfold SileroRun.forward, Silero.forward.
  unfold unsqueeze, call_conv, call_relu3, call_pool, squeeze, call_linear,
    norm, add, div.
  pose proof (ext_refl σ) as E0.
  run1 as2 E0 Hx. advance E0 σ1 H1 E1.
  run1 as3 E1 H1.
  destruct (conv1d (Silero.conv1 (params σ)) (unsqueeze1 t)) as [c1|]; simpl_opt;
    [|reflexivity].
  advance E1 σ2 H2 E2.
  run1 as3 E2 H2. advance E2 σ3 H3 E3.
  run1 as3 E3 H3.
  destruct (conv1d (Silero.conv2 (params σ)) (relu3 c1)) as [c2|]; simpl_opt;
    [|reflexivity].
  advance E3 σ4 H4 E4.
  run1 as3 E4 H4. advance E4 σ5 H5 E5.
  run1 as3 E5 H5.
  destruct (conv1d (Silero.conv3 (params σ)) (relu3 c2)) as [c3|]; simpl_opt;
    [|reflexivity].
  advance E5 σ6 H6 E6.
  run1 as3 E6 H6. advance E6 σ7 H7 E7.
  run1 as3 E7 H7. advance E7 σ8 H8 E8.
  run1 as3 E8 H8. advance E8 σ9 H9 E9.
  run1 as2 E9 H9.
  destruct (linear (Silero.fc (params σ)) (squeeze_last (adaptive_avg_pool1 (relu3 c3))))
    as [p|]; simpl_opt; [|reflexivity].
  advance E9 σ10 H10 E10.
  run1 as2 E10 H10. advance_keeping H10 E10 σ11 H11 E11.
  run1 as2 E11 H11. advance_keeping H10 E11 σ12 H12 E12.
  rewrite (step_op2 as2 as2 _ _ _ σ12 _ _ _ _ _ _ E12 H10 eq_refl H12 eq_refl).
  cbn beta iota.
  advance E12 σ13 H13 E13.
  eexists _, σ13. split; [reflexivity|]. split; [exact E13 | exact H13].
Qed.
End SileroRuns.

Section ResemblyzerRuns.
Import Runtime Embedding.

Lemma step_lstm {P A : Type} (layer : P → LSTM)
      (k : nat * (nat * nat) → St P A) (σ0 σ : state P) (l : nat) (t : tensor3) :
  ext σ0 σ -> objs σ !! l = Some (OT3 t) ->
  bind (call_lstm layer l) k σ
  = match lstm (layer (params σ0)) t with
    | Some r =>
        let σ1 := with_obj (OT3 r.1) σ in
        let σ2 := with_obj (OT3 r.2.1) σ1 in
        let σ3 := with_obj (OT3 r.2.2) σ2 in
        k (next σ, (next σ1, next σ2)) σ3
    | None => None
    end.
Proof.
  intros [Hp _] Hl. unfold bind, call_lstm. rewrite Hl. cbn. rewrite Hp.
  by destruct (lstm (layer (params σ0)) t).
Qed.

Lemma resemblyzer_run (σ : state Resemblyzer.ResemblyzerWrapper) (x : nat)
      (mels : tensor3) :
  objs σ !! x = Some (OT3 mels) ->
  match Resemblyzer.forward (params σ) mels with
  | Some out =>
      ∃ y σ', ResemblyzerRun.forward x σ = Some (y, σ') ∧ ext σ σ'
              ∧ objs σ' !! y = Some (OT2 out)
  | None => ResemblyzerRun.forward x σ = None
  end.
Proof.
  intros Hx. unfold ResemblyzerRun.forward, Resemblyzer.forward.
  unfold index_last, call_linear, call_relu2, norm, add, div.
  pose proof (ext_refl σ) as E0.
  rewrite (step_lstm _ _ σ σ x mels E0 Hx).
  destruct (lstm (Resemblyzer.lstm (params σ)) mels) as [[out [hidden cn]]|];
    simpl_opt; [|reflexivity].
  cbn [fst snd]. cbv zeta.
  pose proof (ext_with_obj (OT3 out) _ σ E0) as Ea.
  set (σa := with_obj (OT3 out) σ) in *.
  pose proof (with_obj_new (OT3 hidden) σa) as Hh.
  pose proof (ext_with_obj (OT3 hidden) _ σa Ea) as Eb.
  set (σb := with_obj (OT3 hidden) σa) in *.
  apply (with_obj_keeps (OT3 cn)) in Hh.
  pose proof (ext_with_obj (OT3 cn) _ σb Eb) as E1.
  generalize dependent (with_obj (OT3 cn) σb). intros σ1 Hh E1.
  run1 as3 E1 Hh.
  destruct (last hidden) as [h|]; simpl_opt; [|reflexivity].
  advance E1 σ2 H2 E2.
  run1 as2 E2 H2.
  destruct (linear (Resemblyzer.linear (params σ)) h) as [p|]; simpl_opt;
    [|reflexivity].
  advance E2 σ3 H3 E3.
  run1 as2 E3 H3. advance E3 σ4 H4 E4.
  run1 as2 E4 H4. advance_keeping H4 E4 σ5 H5 E5.
  run1 as2 E5 H5. advance_keeping H4 E5 σ6 H6 E6.
  rewrite (step_op2 as2 as2 _ _ _ σ6 _ _ _ _ _ _ E6 H4 eq_refl H6 eq_refl).
  cbn beta iota.
  advance E6 σ7 H7 E7.
  eexists _, σ7. split; [reflexivity|]. split; [exact E7 | exact H7].
Qed.

End ResemblyzerRuns.

Section PurityClaim.
Import Runtime Embedding Examples.

(** C7: a call of either [forward] leaves the module's attributes and
    every existing tensor object (the input among them) as they were, and
    the value it returns is a function of the parameters and of the input
    value alone: two calls on equal inputs under equal parameters, from any
    two stores (for instance one after the other), both raise or both
    return tensors of equal value. *)
Theorem forward_deterministic :
  (∀ (σ : state Silero.SimpleSpeakerEmbedding) x t,
      objs σ !! x = Some (OT2 t) ->
      match SileroRun.forward x σ with
      | Some (y, σ') =>
          params σ' = params σ ∧ objs σ ⊆ objs σ'
          ∧ ∃ out, Silero.forward (params σ) t = Some out
                   ∧ objs σ' !! y = Some (OT2 out)
      | None => Silero.forward (params σ) t = None
      end)
  ∧ (∀ (σa σb : state Silero.SimpleSpeakerEmbedding) xa xb t,
        params σa = params σb ->
        objs σa !! xa = Some (OT2 t) -> objs σb !! xb = Some (OT2 t) ->
        match SileroRun.forward xa σa, SileroRun.forward xb σb with
        | Some (ya, σa'), Some (yb, σb') =>
            is_Some (objs σa' !! ya) ∧ objs σa' !! ya = objs σb' !! yb
        | None, None => True
        | _, _ => False
        end)
  ∧ (∀ (σ : state Resemblyzer.ResemblyzerWrapper) x mels,
        objs σ !! x = Some (OT3 mels) ->
        match ResemblyzerRun.forward x σ with
        | Some (y, σ') =>
            params σ' = params σ ∧ objs σ ⊆ objs σ'
            ∧ ∃ out, Resemblyzer.forward (params σ) mels = Some out
                     ∧ objs σ' !! y = Some (OT2 out)
        | None => Resemblyzer.forward (params σ) mels = None
        end)
  ∧ (∀ (σa σb : state Resemblyzer.ResemblyzerWrapper) xa xb mels,
        params σa = params σb ->
        objs σa !! xa = Some (OT3 mels) -> objs σb !! xb = Some (OT3 mels) ->
        match ResemblyzerRun.forward xa σa, ResemblyzerRun.forward xb σb with
        | Some (ya, σa'), Some (yb, σb') =>
            is_Some (objs σa' !! ya) ∧ objs σa' !! ya = objs σb' !! yb
        | None, None => True
        | _, _ => False
        end).
Proof.
  split; [|split; [|split]].
  - intros σ x t Hx. pose proof (silero_run σ x t Hx) as Hrun.
    destruct (Silero.forward (params σ) t) as [out|].
    + destruct Hrun as (y & σ' & -> & [Hp Hsub] & Hy). eauto 6.
    + by rewrite Hrun.
  - intros σa σb xa xb t Hp Ha Hb.
    pose proof (silero_run σa xa t Ha) as Hra.
    pose proof (silero_run σb xb t Hb) as Hrb. rewrite Hp in Hra.
    destruct (Silero.forward (params σb) t) as [out|].
    + destruct Hra as (ya & σa' & -> & _ & Hya).
      destruct Hrb as (yb & σb' & -> & _ & Hyb).
      rewrite Hya, Hyb. eauto.
    + by rewrite Hra, Hrb.
  - intros σ x t Hx. pose proof (resemblyzer_run σ x t Hx) as Hrun.
    destruct (Resemblyzer.forward (params σ) t) as [out|].
    + destruct Hrun as (y & σ' & -> & [Hp Hsub] & Hy). eauto 6.
    + by rewrite Hrun.
  - intros σa σb xa xb t Hp Ha Hb.
    pose proof (resemblyzer_run σa xa t Ha) as Hra.
    pose proof (resemblyzer_run σb xb t Hb) as Hrb. rewrite Hp in Hra.
    destruct (Resemblyzer.forward (params σb) t) as [out|].
    + destruct Hra as (ya & σa' & -> & _ & Hya).
      destruct Hrb as (yb & σb' & -> & _ & Hyb).
      rewrite Hya, Hyb. eauto.
    + by rewrite Hra, Hrb.
Qed.

Lemma forward_deterministic_witness :
  match SileroRun.forward 0 silero_store with
  | Some (y, σ') =>
      params σ' = params silero_store ∧ objs silero_store ⊆ objs σ'
      ∧ ∃ out, Silero.forward (params silero_store) [silence 176] = Some out
               ∧ objs σ' !! y = Some (OT2 out)
  | None => Silero.forward (params silero_store) [silence 176] = None
  end.
Proof.
  apply (proj1 forward_deterministic silero_store 0 [silence 176]).
  apply lookup_singleton_eq.
Defined.

End PurityClaim.

(** * Further properties of the two scripts *)

(** ** Batches *)

Lemma mapM_app {A B : Type} (f : A → option B) (l1 l2 : list A) :
  mapM f (l1 ++ l2) = k1 ← mapM f l1; k2 ← mapM f l2; Some (k1 ++ k2).
Proof.
  induction l1 as [|a l1 IH]; cbn [app].
  - cbn. by destruct (mapM f l2).
  - rewrite !mapM_cons, IH. destruct (f a) as [b|]; cbn; [|reflexivity].
    destruct (mapM f l1) as [k1|]; cbn; [|reflexivity].
    by destruct (mapM f l2).
Qed.

Lemma forward_rec_no_layers (m : Resemblyzer.ResemblyzerWrapper) (mels : tensor3) :
  lstm_layers (Resemblyzer.lstm m) = [] -> Resemblyzer.forward m mels = None.
Proof.
  intros Hl. unfold Resemblyzer.forward, lstm. rewrite Hl.
  by destruct (decide _).
Qed.

(** The rows of a batch do not influence each other: encoding two batches
    at once gives the two results one after the other, and fails as soon as
    one of them fails.  This holds for both modules, whatever the parameters. *)
Theorem forward_batch_app :
  (∀ m x1 x2,
      Silero.forward m (x1 ++ x2)
      = e1 ← Silero.forward m x1; e2 ← Silero.forward m x2; Some (e1 ++ e2))
  ∧ (∀ m mels1 mels2,
        Resemblyzer.forward m (mels1 ++ mels2)
        = e1 ← Resemblyzer.forward m mels1;
          e2 ← Resemblyzer.forward m mels2; Some (e1 ++ e2)).
Proof.
  split.
  - intros m x1 x2. rewrite !forward_cnn_per_frame. apply mapM_app.
  - intros m mels1 mels2.
    destruct (lstm_layers (Resemblyzer.lstm m)) as [|ly lys] eqn:Hl.
    + by rewrite !forward_rec_no_layers.
    + rewrite !forward_rec_per_frame by (by rewrite Hl). apply mapM_app.
Qed.

(** ** The time axis of the convolution stack *)

Section TimeAxis.
Import Embedding Examples.

(** The three strided convolutions together step by 64 samples over a
    window of 176. *)
Lemma len3_closed (L : nat) : 176 ≤ L -> len3 L = (L - 176) / 64 + 1.
Proof.
  intros HL. unfold len3, len2, len1, conv1d_out_len.
  assert (Hq : (L - 80) / 16 = (L - 176) / 16 + 6).
  { replace (L - 80) with ((L - 176) + 6 * 16) by lia.
    by rewrite Nat.div_add. }
  rewrite Hq. set (q := (L - 176) / 16).
  replace (q + 6 + 1 - 3) with (q + 2 * 2) by lia.
  rewrite Nat.div_add by lia.
  replace (q / 2 + 2 + 1 - 3) with (q / 2) by lia.
  rewrite Nat.Div0.div_div. unfold q. rewrite Nat.Div0.div_div. reflexivity.
Qed.

(** A waveform of [L >= 176] samples leaves the third stage as 128
    channels of [(L - 176) / 64 + 1] time steps, over which the pooling
    averages: one step per 64 samples (4 ms at 16 kHz) after the first
    176. *)
Theorem cnn_feature_steps (m : Silero.SimpleSpeakerEmbedding) (w : vec) :
  Silero.init_ok m = true -> 176 ≤ length w ->
  ∃ f1 f2 f3,
    Spec.conv_stage (Silero.conv1 m) [w] = Some f1
    ∧ Spec.conv_stage (Silero.conv2 m) f1 = Some f2
    ∧ Spec.conv_stage (Silero.conv3 m) f2 = Some f3
    ∧ shape2 128 ((length w - 176) / 64 + 1) f3.
Proof.
  intros Hm Hw.
  destruct (encode_cnn_stages m w Hm Hw)
    as (f1 & f2 & f3 & e & H1 & _ & H2 & _ & H3 & S3 & _).
  exists f1, f2, f3. rewrite <- len3_closed by exact Hw. auto.
Qed.

Lemma cnn_feature_steps_witness :
  ∃ f1 f2 f3,
    Spec.conv_stage (Silero.conv1 (silero_model (zeros 128))) [silence 240] = Some f1
    ∧ Spec.conv_stage (Silero.conv2 (silero_model (zeros 128))) f1 = Some f2
    ∧ Spec.conv_stage (Silero.conv3 (silero_model (zeros 128))) f2 = Some f3
    ∧ shape2 128 2 f3.
Proof.
  destruct (cnn_feature_steps (silero_model (zeros 128)) (silence 240))
    as (f1 & f2 & f3 & H1 & H2 & H3 & S3).
  - vm_compute. reflexivity.
  - unfold silence. rewrite zeros_length. lia.
  - exists f1, f2, f3. unfold silence in S3. rewrite zeros_length in S3.
    auto.
Defined.

End TimeAxis.

(** ** The parameter count *)

Section ParameterCount.
Import Embedding Examples SileroScript.

Lemma list_sum_cons (a : nat) (l : list nat) : list_sum (a :: l) = a + list_sum l.
Proof. reflexivity. Qed.

Lemma rows_numel (k : nat) (t : tensor2) :
  forallb (fun row => bool_decide (length row = k)) t = true ->
  list_sum (map length t) = length t * k.
Proof.
  induction t as [|row t IH]; [reflexivity|].
  cbn [forallb]. rewrite andb_true_iff, bool_decide_eq_true.
  intros [Hrow Ht]. rewrite map_cons, list_sum_cons, IH by exact Ht.
  cbn [length]. lia.
Qed.

Lemma filters_numel (cin k : nat) (t : tensor3) :
  forallb (fun filt => bool_decide (length filt = cin)
                       && forallb (fun row => bool_decide (length row = k)) filt) t
  = true ->
  list_sum (map (fun f => list_sum (map length f)) t) = length t * (cin * k).
Proof.
  induction t as [|f t IH]; [reflexivity|].
  cbn [forallb]. rewrite !andb_true_iff, bool_decide_eq_true.
  intros [[Hf Hrows] Ht]. rewrite map_cons, list_sum_cons, IH by exact Ht.
  rewrite (rows_numel k f Hrows), Hf. cbn [length]. lia.
Qed.

Lemma conv_numel (c : Conv1d) (cin cout k s : nat) :
  conv_shape_ok c cin cout k s = true ->
  numel (P3 (conv_weight c)) = cout * (cin * k) ∧ numel (P1 (conv_bias c)) = cout.
Proof.
  unfold conv_shape_ok. rewrite !andb_true_iff, !bool_decide_eq_true.
  intros [[[[[[_ _] _] _] Hw] Hf] Hb]. cbn [numel].
  by rewrite (filters_numel cin k _ Hf), Hw, Hb.
Qed.

Lemma linear_numel (l : Linear) (fin fout : nat) :
  linear_shape_ok l fin fout = true ->
  numel (P2 (lin_weight l)) = fout * fin ∧ numel (P1 (lin_bias l)) = fout.
Proof.
  unfold linear_shape_ok. rewrite !andb_true_iff, !bool_decide_eq_true.
  intros [[[[_ _] Hw] Hr] Hb]. cbn [numel].
  by rewrite (rows_numel fin _ Hr), Hw, Hb.
Qed.

Lemma count_parameters_value (m : Silero.SimpleSpeakerEmbedding) :
  Silero.init_ok m = true -> count_parameters m = Z.to_nat 50016.
Proof.
  intros Hm. apply init_ok_spec in Hm as (H1 & H2 & H3 & Hfc).
  apply conv_numel in H1 as [W1 B1]. apply conv_numel in H2 as [W2 B2].
  apply conv_numel in H3 as [W3 B3]. apply linear_numel in Hfc as [W4 B4].
  unfold count_parameters, parameters.
  rewrite !map_cons, !list_sum_cons, W1, B1, W2, B2, W3, B3, W4, B4.
  cbn [map list_sum foldr fold_right]. lia.
Qed.

(** Whatever values the initialisation draws, the module has 50016
    parameters (2592 + 6208 + 24704 + 16512 for the three convolutions and
    the projection): the number [main] prints. *)
Theorem parameter_count (m : Silero.SimpleSpeakerEmbedding) :
  Silero.init_ok m = true -> Z.of_nat (count_parameters m) = 50016%Z.
Proof. intros Hm. rewrite (count_parameters_value m Hm). lia. Qed.

Lemma parameter_count_witness :
  Z.of_nat (count_parameters (silero_model (zeros 128))) = 50016%Z.
Proof.
  apply (parameter_count (silero_model (zeros 128))).
  vm_compute. reflexivity.
Defined.

End ParameterCount.

(** ** Trailing samples *)

Section TrailingSamples.
Import Embedding Examples.

Lemma window_prefix (r r' : vec) (pos k : nat) :
  r `prefix_of` r' -> pos + k ≤ length r ->
  take k (drop pos r') = take k (drop pos r).
Proof.
  intros [t ->] Hpk. rewrite drop_app_le by lia.
  apply take_app_le. rewrite length_drop. lia.
Qed.

(** An output entry reads only its own window of the input. *)
Lemma corr_at_prefix (filt x x' : tensor2) (pos k : nat) :
  Forall2 prefix x x' -> Forall (fun r => pos + k ≤ length r) x ->
  corr_at filt x' pos k = corr_at filt x pos k.
Proof.
  unfold corr_at. intros Hp. revert filt.
  induction Hp as [|r r' x x' Hr _ IH]; intros filt Hlen; [by destruct filt|].
  destruct filt as [|f filt]; [reflexivity|].
  inversion Hlen as [|? ? Hr0 Hx0]; subst.
  cbn [zip_with]. rewrite !sum_cons, (IH filt Hx0).
  by rewrite (window_prefix r r' pos k Hr Hr0).
Qed.

Lemma zip_with_prefix {A B : Type} (F F' : A → B → vec) (W : list A) (Bs : list B) :
  (∀ a b, F a b `prefix_of` F' a b) ->
  Forall2 prefix (zip_with F W Bs) (zip_with F' W Bs).
Proof.
  intros HF. revert Bs. induction W as [|a W IH]; intros Bs; [constructor|].
  destruct Bs as [|b Bs]; [constructor|]. cbn [zip_with]. by constructor.
Qed.

Lemma window_fits (L k s t : nat) :
  k ≤ L -> t < conv1d_out_len L k s -> t * s + k ≤ L.
Proof.
  unfold conv1d_out_len. intros Hk Ht.
  assert (t ≤ (L - k) / s) by lia.
  pose proof (Nat.Div0.mul_div_le (L - k) s). nia.
Qed.

(** Lengthening every input row only lengthens every output row of a
    stage: the entries already there stay as they are. *)
Lemma conv_stage_prefix (c : Conv1d) (cin cout k s L : nat) (x x' y y' : tensor2) :
  conv_shape_ok c cin cout k s = true ->
  0 < cin -> shape2 cin L x -> k ≤ L -> Forall2 prefix x x' ->
  Spec.conv_stage c x = Some y -> Spec.conv_stage c x' = Some y' ->
  Forall2 prefix y y'.
Proof.
  intros Hc Hcin Hx HkL Hp Hy Hy'.
  apply conv_shape_ok_spec in Hc as (Hin & Hk & Hs & _ & _).
  pose proof (shape2_hd _ _ _ Hcin Hx) as HL.
  assert (HLL : L ≤ length (hd [] x')).
  { destruct Hp as [|r r' ? ? Hr _]; [cbn in HL; lia|].
    cbn in *. rewrite <- HL. by apply prefix_length. }
  unfold Spec.conv_stage, conv1d_sample in Hy, Hy'.
  rewrite HL, Hk, Hs in Hy. rewrite Hk, Hs in Hy'.
  destruct (decide _) as [_|]; [|done].
  destruct (decide _) as [_|]; [|done].
  cbn in Hy, Hy'. injection Hy as <-. injection Hy' as <-.
  apply Forall2_fmap.
  apply (Forall2_impl prefix); [|intros r r' [t ->]; exists (map relu t); apply fmap_app].
  apply zip_with_prefix. intros filt b.
  set (n := conv1d_out_len L k s).
  set (n' := conv1d_out_len (length (hd [] x')) k s).
  assert (Hn : n ≤ n').
  { unfold n, n', conv1d_out_len.
    pose proof (Nat.Div0.div_le_mono (L - k) (length (hd [] x') - k) s). lia. }
  replace n' with (n + (n' - n)) by lia.
  rewrite seq_app, fmap_app. eexists.
  f_equal. apply map_ext_in. intros t Ht. apply in_seq in Ht.
  f_equal. apply corr_at_prefix; [exact Hp|].
  destruct Hx as [_ Hrows]. eapply Forall_impl; [exact Hrows|].
  intros r Hr. cbn. rewrite Hr. apply window_fits; [exact HkL | lia].
Qed.

Lemma rows_prefix_same_length (n : nat) (y y' : tensor2) :
  Forall2 prefix y y' ->
  Forall (fun r => length r = n) y -> Forall (fun r => length r = n) y' ->
  y = y'.
Proof.
  induction 1 as [|r r' y y' Hr _ IH]; intros Hy Hy'; [reflexivity|].
  inversion Hy; inversion Hy'; subst. f_equal; [|by apply IH].
  apply prefix_length_eq; [exact Hr | lia].
Qed.

(** Samples after the last complete 64-sample step do not reach the
    embedding: a waveform and any extension of it that does not add a
    further time step to the third stage are encoded alike. *)
Theorem cnn_ignores_trailing_samples
        (m : Silero.SimpleSpeakerEmbedding) (w t : vec) :
  Silero.init_ok m = true -> 176 ≤ length w ->
  (length (w ++ t) - 176) / 64 = (length w - 176) / 64 ->
  Silero.forward m [w ++ t] = Silero.forward m [w]
  ∧ is_Some (Silero.forward m [w]).
Proof.
  intros Hm Hw Hsteps.
  assert (Hw' : 176 ≤ length (w ++ t)) by (rewrite length_app; lia).
  destruct (encode_cnn_stages m w Hm Hw)
    as (f1 & f2 & f3 & e & H1 & S1 & H2 & S2 & H3 & S3 & Hl & _ & Henc).
  destruct (encode_cnn_stages m (w ++ t) Hm Hw')
    as (g1 & g2 & g3 & e' & G1 & T1 & G2 & T2 & G3 & T3 & Gl & _ & Genc).
  pose proof (init_ok_spec m Hm) as (C1 & C2 & C3 & _).
  destruct (lens_176 _ Hw) as (L1 & L2 & L3).
  assert (P0 : Forall2 prefix [w] [w ++ t]).
  { constructor; [|constructor]. by exists t. }
  pose proof (conv_stage_prefix _ 1 32 80 16 (length w) _ _ _ _ C1
                ltac:(lia) (shape2_singleton w) ltac:(lia) P0 H1 G1) as P1.
  pose proof (conv_stage_prefix _ 32 64 3 2 (len1 (length w)) _ _ _ _ C2
                ltac:(lia) S1 ltac:(lia) P1 H2 G2) as P2.
  pose proof (conv_stage_prefix _ 64 128 3 2 (len2 (length w)) _ _ _ _ C3
                ltac:(lia) S2 ltac:(lia) P2 H3 G3) as P3.
  assert (Heq : g3 = f3).
  { symmetry. apply (rows_prefix_same_length (len3 (length w))); [exact P3| |].
    - apply S3.
    - rewrite (len3_closed _ Hw), <- Hsteps, <- (len3_closed _ Hw'). apply T3. }
  rewrite !forward_cnn_per_frame, !mapM_cons, Henc, Genc.
  subst g3. rewrite Hl in Gl. injection Gl as ->. split; [reflexivity|].
  cbn. eauto.
Qed.

Lemma cnn_ignores_trailing_samples_witness :
  Silero.forward (silero_model (zeros 128)) [silence 176 ++ zeros 63]
  = Silero.forward (silero_model (zeros 128)) [silence 176]
  ∧ is_Some (Silero.forward (silero_model (zeros 128)) [silence 176]).
Proof.
  apply (cnn_ignores_trailing_samples (silero_model (zeros 128)) (silence 176) (zeros 63)).
  - vm_compute. reflexivity.
  - unfold silence. rewrite zeros_length. lia.
  - unfold silence. rewrite length_app, !zeros_length. reflexivity.
Defined.

End TrailingSamples.

(** ** Paths *)

Section Paths.
Import Os.

Lemma str_length_app (a b : string) :
  String.length (a +:+ b) = String.length a + String.length b.
Proof.
  induction a as [|c a IH]; [reflexivity|].
  change (S (String.length (a +:+ b)) = S (String.length a) + String.length b).
  rewrite IH. reflexivity.
Qed.

Lemma join_longer (a b : string) :
  starts_with_sep b = false ->
  String.length a + String.length b ≤ String.length (join a b).
Proof.
  intros Hb. unfold join. rewrite Hb.
  destruct (_ || _); cbn beta iota; rewrite !str_length_app; cbn; lia.
Qed.

(** Wherever the script lies, the output directory, the model path and
    the backup path are three different paths. *)
Lemma paths_distinct (file : string) :
  output_path file ≠ output_dir file
  ∧ backup_path file ≠ output_dir file
  ∧ backup_path file ≠ output_path file.
Proof.
  pose proof (join_longer (output_dir file) "SpeakerEmbedding.mlpackage" eq_refl)
    as Hlen.
  change (String.length "SpeakerEmbedding.mlpackage") with 26 in Hlen.
  fold (output_path file) in Hlen.
  assert (Hbak : String.length (backup_path file)
                 = String.length (output_path file) + 7).
  { unfold backup_path. rewrite str_length_app. reflexivity. }
  repeat split; intros Heq; apply (f_equal String.length) in Heq; lia.
Qed.

End Paths.

(** ** Statements of the scripts, one at a time *)

Section IoSteps.
Import Os.

Lemma bind_ok {A B : Type} (c : IO A) (k : A → IO B) (w w1 : world) (a : A) :
  c w = (Ok a, w1) -> bind c k w = k a w1.
Proof. intros Hc. unfold bind. by rewrite Hc. Qed.

Lemma bind_raised {A B : Type} (c : IO A) (k : A → IO B) (w w1 : world) (e : exn) :
  c w = (Raised e, w1) -> bind c k w = (Raised e, w1).
Proof. intros Hc. unfold bind. by rewrite Hc. Qed.

Lemma seq_ok {A B : Type} (c : IO A) (k : IO B) (w w1 : world) (a : A) :
  c w = (Ok a, w1) -> seq c k w = k w1.
Proof. apply bind_ok. Qed.

Lemma seq_raised {A B : Type} (c : IO A) (k : IO B) (w w1 : world) (e : exn) :
  c w = (Raised e, w1) -> seq c k w = (Raised e, w1).
Proof. apply bind_raised. Qed.

(** [os.makedirs(p, exist_ok=True)] on a path that is not a regular file. *)
Lemma makedirs_ok (p : string) (w : world) :
  (∀ d, files w !! p ≠ Some (File d)) ->
  ∃ w1, makedirs p w = (Ok tt, w1)
        ∧ stdout w1 = stdout w
        ∧ (∀ q, q ≠ p -> files w1 !! q = files w !! q)
        ∧ (∀ d, files w1 !! p ≠ Some (File d)).
Proof.
  intros Hp. unfold makedirs. destruct (files w !! p) as [[d|d]|] eqn:Hl.
  - by destruct (Hp d).
  - exists w. by rewrite Hl.
  - eexists. split; [reflexivity|]. cbn. split; [reflexivity|]. split.
    + intros q Hq. by rewrite lookup_insert_ne.
    + intros d. by rewrite lookup_insert_eq.
Qed.

Lemma makedirs_on_file (p : string) (w : world) (d : nat) :
  files w !! p = Some (File d) -> makedirs p w = (Raised FileExistsError, w).
Proof. intros Hp. unfold makedirs. by rewrite Hp. Qed.

End IoSteps.

(** ** The backup block of [download_resemblyzer.py] *)

Section Backup.
Import Os ResemblyzerScript.

Lemma backup_nothing_there (out : string) (w : world) :
  files w !! out = None -> backup_old_model out w = (Ok tt, w).
Proof.
  intros Ho. unfold backup_old_model, bind, exists_. cbn.
  rewrite Ho. by rewrite bool_decide_false by (by intros [? ?]).
Qed.

Lemma backup_moves (out : string) (w : world) (n : node) :
  out +:+ ".backup" ≠ out ->
  files w !! out = Some n ->
  (∀ d, files w !! (out +:+ ".backup") ≠ Some (File d)) ->
  backup_old_model out w
  = (Ok tt,
     mkWorld (<[out +:+ ".backup" := n]>
                (delete out (delete (out +:+ ".backup") (files w))))
             (stdout w ++ ["Backed up old model to " +:+ (out +:+ ".backup")])).
Proof.
  intros Hne Ho Hb. unfold backup_old_model, bind, seq, bind, exists_. cbn.
  rewrite Ho. rewrite bool_decide_true by eauto.
  destruct (files w !! (out +:+ ".backup")) as [[d|d]|] eqn:Hbak.
  - by destruct (Hb d).
  - rewrite bool_decide_true by eauto. unfold rmtree. rewrite Hbak. cbn.
    unfold move. cbn. rewrite lookup_delete_ne by done. rewrite Ho.
    rewrite lookup_delete_eq. reflexivity.
  - rewrite bool_decide_false by (by intros [? ?]). cbn.
    unfold move. rewrite Ho, Hbak. unfold rename, print. cbn.
    by rewrite (delete_id (files w) (out +:+ ".backup")) by exact Hbak.
Qed.

Lemma backup_refused (out : string) (w : world) (n : node) (d : nat) :
  files w !! out = Some n ->
  files w !! (out +:+ ".backup") = Some (File d) ->
  backup_old_model out w = (Raised NotADirectoryError, w).
Proof.
  intros Ho Hb. unfold backup_old_model, bind, seq, bind, exists_. cbn.
  rewrite Ho. rewrite bool_decide_true by eauto.
  rewrite Hb. rewrite bool_decide_true by eauto.
  unfold rmtree. by rewrite Hb.
Qed.

End Backup.

(** ** [convert_resemblyzer_to_coreml] *)

Section ResemblyzerConvert.
Import Os ResemblyzerScript.

Lemma shaped_mels_accepted (mels : tensor3) :
  Forall (shape2 n_frames mel_channels) mels ->
  Forall (fun s => s ≠ [] ∧ Forall (fun fr => length fr = 40) s) mels.
Proof.
  intros Hx. eapply Forall_impl; [exact Hx|]. intros s [Hlen Hrows].
  split; [|exact Hrows]. intros ->. cbn in Hlen. unfold n_frames in Hlen. lia.
Qed.

(** The example input of the trace always passes through [forward]. *)
Lemma trace_succeeds (m : Resemblyzer.ResemblyzerWrapper) (example : tensor3) :
  Resemblyzer.loaded_ok m = true ->
  Forall (shape2 n_frames mel_channels) example ->
  is_Some (Resemblyzer.forward m example).
Proof.
  intros Hm Hx.
  destruct (forward_rec_ok m example Hm (shaped_mels_accepted _ Hx)) as (raw & -> & _).
  eauto.
Qed.

Lemma convert_ok (ext : externals) (out : string) (w : world)
      (m : Resemblyzer.ResemblyzerWrapper) (pkg : nat) :
  load_encoder ext = Some m ->
  is_Some (Resemblyzer.forward m (randn ext)) ->
  ct_convert ext = Some pkg ->
  convert_resemblyzer_to_coreml ext out w
  = (Ok pkg, mkWorld (<[out := Dir pkg]> (files w))
                     (stdout w ++ convert_lines ext out)).
Proof.
  intros Hload [t Ht] Hct.
  unfold convert_resemblyzer_to_coreml, seq, bind, lift, print, print_lines, save, ret.
  rewrite Hload, Ht, Hct. cbn. unfold convert_lines.
  rewrite <- !app_assoc. reflexivity.
Qed.

Lemma convert_fails (ext : externals) (out : string) (w : world) :
  load_encoder ext = None ∨ ct_convert ext = None ->
  ∃ w1, convert_resemblyzer_to_coreml ext out w = (Raised LibraryError, w1)
        ∧ files w1 = files w.
Proof.
  intros Hbad.
  unfold convert_resemblyzer_to_coreml, seq, bind, lift, print, print_lines, save,
    ret, raise.
  destruct (load_encoder ext) as [m|]; cbn; [|eauto].
  destruct (Resemblyzer.forward m (randn ext)) as [t|]; cbn; [|eauto].
  destruct Hbad as [|Hct]; [done|]. rewrite Hct. cbn. eauto.
Qed.

End ResemblyzerConvert.

(** ** [main] of download_resemblyzer.py *)

Section ResemblyzerMain.
Import Os ResemblyzerScript ScriptExamples.

Lemma main_unfold (ext : externals) (file : string) :
  main ext file
  = seq (makedirs (output_dir file)) (
    seq (backup_old_model (output_path file)) (
    seq (convert_resemblyzer_to_coreml ext (output_path file)) (
    seq (print (nl +:+ "Done! The model now uses pre-trained Resemblyzer weights.")) (
    seq (print "Note: You'll need to update VoiceVerifier.swift to:") (
    seq (print "  1. Compute mel spectrograms from audio") (
    print "  2. Use 256-dim embeddings instead of 128")))))).
Proof. reflexivity. Qed.

Lemma after_convert (ext : externals) (out : string) (w : world)
      (m : Resemblyzer.ResemblyzerWrapper) (pkg : nat) :
  load_encoder ext = Some m ->
  is_Some (Resemblyzer.forward m (randn ext)) ->
  ct_convert ext = Some pkg ->
  seq (convert_resemblyzer_to_coreml ext out) (
  seq (print (nl +:+ "Done! The model now uses pre-trained Resemblyzer weights.")) (
  seq (print "Note: You'll need to update VoiceVerifier.swift to:") (
  seq (print "  1. Compute mel spectrograms from audio") (
  print "  2. Use 256-dim embeddings instead of 128")))) w
  = (Ok tt, mkWorld (<[out := Dir pkg]> (files w))
                    (stdout w ++ convert_lines ext out ++ done_lines)).
Proof.
  intros Hload Ht Hct.
  rewrite (seq_ok _ _ _ _ _ (convert_ok ext out w m pkg Hload Ht Hct)).
  unfold seq, bind, print. cbn [files stdout]. rewrite <- !app_assoc. reflexivity.
Qed.

(** A run over an existing model. *)
Lemma main_over_model (ext : externals) (file : string) (w : world)
      (m : Resemblyzer.ResemblyzerWrapper) (pkg : nat) (n : node) :
  load_encoder ext = Some m ->
  is_Some (Resemblyzer.forward m (randn ext)) ->
  ct_convert ext = Some pkg ->
  (∀ d, files w !! output_dir file ≠ Some (File d)) ->
  files w !! output_path file = Some n ->
  (∀ d, files w !! backup_path file ≠ Some (File d)) ->
  ∃ w',
    main ext file w = (Ok tt, w')
    ∧ files w' !! output_path file = Some (Dir pkg)
    ∧ files w' !! backup_path file = Some n
    ∧ same_except [output_dir file; output_path file; backup_path file]
                  (files w) (files w')
    ∧ (∀ d, files w' !! output_dir file ≠ Some (File d))
    ∧ stdout w'
      = stdout w ++ ("Backed up old model to " +:+ backup_path file)
                    :: convert_lines ext (output_path file) ++ done_lines.
Proof.
  intros Hload Ht Hct Hdir Hout Hbak.
  destruct (paths_distinct file) as (Hod & Hbd & Hbo).
  destruct (makedirs_ok _ w Hdir) as (w1 & Hmk & Hstd & Hsame & Hdir1).
  rewrite main_unfold, (seq_ok _ _ _ _ _ Hmk).
  rewrite (seq_ok _ _ _ _ _
             (backup_moves (output_path file) w1 n Hbo
                ltac:(by rewrite Hsame) ltac:(intros d; by rewrite Hsame))).
  rewrite (after_convert ext _ _ m pkg Hload Ht Hct).
  eexists. split; [reflexivity|]. cbn [files stdout].
  fold (backup_path file).
  split; [by rewrite lookup_insert_eq|].
  split; [by rewrite lookup_insert_ne, lookup_insert_eq|].
  split.
  { intros q Hq. rewrite !not_elem_of_cons in Hq. destruct Hq as (? & ? & ? & _).
    rewrite lookup_insert_ne, lookup_insert_ne, lookup_delete_ne,
      lookup_delete_ne by done. by apply Hsame. }
  split.
  { intros d. rewrite lookup_insert_ne, lookup_insert_ne, lookup_delete_ne,
      lookup_delete_ne by done. apply Hdir1. }
  rewrite Hstd, <- !app_assoc. reflexivity.
Qed.

(** A run with no model on disk. *)
Lemma main_without_model (ext : externals) (file : string) (w : world)
      (m : Resemblyzer.ResemblyzerWrapper) (pkg : nat) :
  load_encoder ext = Some m ->
  is_Some (Resemblyzer.forward m (randn ext)) ->
  ct_convert ext = Some pkg ->
  (∀ d, files w !! output_dir file ≠ Some (File d)) ->
  files w !! output_path file = None ->
  ∃ w',
    main ext file w = (Ok tt, w')
    ∧ files w' !! output_path file = Some (Dir pkg)
    ∧ same_except [output_dir file; output_path file] (files w) (files w')
    ∧ (∀ d, files w' !! output_dir file ≠ Some (File d))
    ∧ stdout w' = stdout w ++ convert_lines ext (output_path file) ++ done_lines.
Proof.
  intros Hload Ht Hct Hdir Hout.
  destruct (paths_distinct file) as (Hod & Hbd & Hbo).
  destruct (makedirs_ok _ w Hdir) as (w1 & Hmk & Hstd & Hsame & Hdir1).
  rewrite main_unfold, (seq_ok _ _ _ _ _ Hmk).
  rewrite (seq_ok _ _ _ _ _
             (backup_nothing_there (output_path file) w1 ltac:(by rewrite Hsame))).
  rewrite (after_convert ext _ _ m pkg Hload Ht Hct).
  eexists. split; [reflexivity|]. cbn [files stdout].
  split; [by rewrite lookup_insert_eq|].
  split.
  { intros q Hq. rewrite !not_elem_of_cons in Hq. destruct Hq as (? & ? & _).
    rewrite lookup_insert_ne by done. by apply Hsame. }
  split.
  { intros d. rewrite lookup_insert_ne by done. apply Hdir1. }
  by rewrite Hstd.
Qed.

End ResemblyzerMain.

(** ** What [main] of download_resemblyzer.py does to the disk *)

Section ResemblyzerMainProperties.
Import Os ResemblyzerScript ScriptExamples.

(** With a working tool chain, a run over an existing model keeps it: what
    was at the model path is afterwards at the backup path (replacing any
    directory that was there), the new package is at the model path, and the
    first two lines printed are the backup report and the loading message of
    the conversion. *)
Theorem main_backs_up_old_model
        (ext : externals) (file : string) (w : world)
        (m : Resemblyzer.ResemblyzerWrapper) (pkg : nat) (n : node) :
  load_encoder ext = Some m ->
  Resemblyzer.loaded_ok m = true ->
  Forall (shape2 n_frames mel_channels) (randn ext) ->
  ct_convert ext = Some pkg ->
  (∀ d, files w !! output_dir file ≠ Some (File d)) ->
  files w !! output_path file = Some n ->
  (∀ d, files w !! backup_path file ≠ Some (File d)) ->
  ∃ w' rest,
    main ext file w = (Ok tt, w')
    ∧ files w' !! output_path file = Some (Dir pkg)
    ∧ files w' !! backup_path file = Some n
    ∧ stdout w'
      = stdout w ++ ("Backed up old model to " +:+ backup_path file)
                    :: "Loading Resemblyzer model..." :: rest.
Proof.
  intros Hload Hm Hx Hct Hdir Hout Hbak.
  destruct (main_over_model ext file w m pkg n Hload (trace_succeeds m _ Hm Hx)
              Hct Hdir Hout Hbak) as (w' & H1 & H2 & H3 & _ & _ & H5).
  exists w'. eexists. repeat split; try done.
  rewrite H5. unfold convert_lines. reflexivity.
Qed.

Lemma main_backs_up_old_model_witness :
  ∃ w' rest,
    main (tools 7) script world_with_backup = (Ok tt, w')
    ∧ files w' !! output_path script = Some (Dir 7)
    ∧ files w' !! backup_path script = Some (Dir 1)
    ∧ stdout w'
      = stdout world_with_backup
        ++ ("Backed up old model to " +:+ backup_path script)
           :: "Loading Resemblyzer model..." :: rest.
Proof.
  apply (main_backs_up_old_model (tools 7) script world_with_backup
           (Examples.rec_model (zeros 256)) 7 (Dir 1)).
  - reflexivity.
  - vm_compute. reflexivity.
  - constructor; [|constructor]. split; [apply length_replicate|].
    apply Forall_replicate, zeros_length.
  - reflexivity.
  - intros d. vm_compute. discriminate.
  - vm_compute. reflexivity.
  - intros d. vm_compute. discriminate.
Defined.

(** With a working tool chain and no model on disk, a run installs the
    package at the model path and leaves the backup path as it was: an
    existing backup is neither removed nor replaced, and the first line
    printed is the loading message of the conversion, not a backup
    report. *)
Theorem main_fresh_install
        (ext : externals) (file : string) (w : world)
        (m : Resemblyzer.ResemblyzerWrapper) (pkg : nat) :
  load_encoder ext = Some m ->
  Resemblyzer.loaded_ok m = true ->
  Forall (shape2 n_frames mel_channels) (randn ext) ->
  ct_convert ext = Some pkg ->
  (∀ d, files w !! output_dir file ≠ Some (File d)) ->
  files w !! output_path file = None ->
  ∃ w' rest,
    main ext file w = (Ok tt, w')
    ∧ files w' !! output_path file = Some (Dir pkg)
    ∧ files w' !! backup_path file = files w !! backup_path file
    ∧ stdout w' = stdout w ++ "Loading Resemblyzer model..." :: rest.
Proof.
  intros Hload Hm Hx Hct Hdir Hout.
  destruct (main_without_model ext file w m pkg Hload (trace_succeeds m _ Hm Hx)
              Hct Hdir Hout) as (w' & H1 & H2 & H3 & _ & H5).
  exists w'. eexists. split; [exact H1|]. split; [exact H2|]. split.
  - destruct (paths_distinct file) as (Hod & Hbd & Hbo).
    apply H3. rewrite !not_elem_of_cons. repeat split; try done.
    apply not_elem_of_nil.
  - rewrite H5. unfold convert_lines. reflexivity.
Qed.

Lemma main_fresh_install_witness :
  ∃ w' rest,
    main (tools 7) script empty_world = (Ok tt, w')
    ∧ files w' !! output_path script = Some (Dir 7)
    ∧ files w' !! backup_path script = files empty_world !! backup_path script
    ∧ stdout w' = stdout empty_world ++ "Loading Resemblyzer model..." :: rest.
Proof.
  apply (main_fresh_install (tools 7) script empty_world
           (Examples.rec_model (zeros 256)) 7).
  - reflexivity.
  - vm_compute. reflexivity.
  - constructor; [|constructor]. split; [apply length_replicate|].
    apply Forall_replicate, zeros_length.
  - reflexivity.
  - intros d. vm_compute. discriminate.
  - reflexivity.
Defined.

(** Whatever is on disk, when the directory and backup steps of [main]
    have gone through, the model path is free: the package is never saved
    over an entry that was not moved away first. *)
Theorem save_target_is_free (file : string) (w : world) :
  match seq (makedirs (output_dir file)) (backup_old_model (output_path file)) w with
  | (Ok _, w1) => files w1 !! output_path file = None
  | (Raised e, w1) =>
      (e = FileExistsError ∨ e = NotADirectoryError)
      ∧ files w1 !! output_path file = files w !! output_path file
  end.
Proof.
  destruct (paths_distinct file) as (Hod & Hbd & Hbo).
  destruct (files w !! output_dir file) as [[d|d]|] eqn:Hdir.
  { rewrite (seq_raised _ _ _ _ _ (makedirs_on_file _ w d Hdir)). auto. }
  all: destruct (makedirs_ok (output_dir file) w) as (w1 & Hmk & _ & Hsame & _);
    [intros d'; by rewrite Hdir|].
  all: rewrite (seq_ok _ _ _ _ _ Hmk).
  all: rewrite <- (Hsame (output_path file) Hod).
  all: pose proof (Hsame (backup_path file) Hbd) as Hb1.
  all: clear Hmk Hsame Hdir.
  all: destruct (files w1 !! output_path file) as [n|] eqn:Hout;
    [|by rewrite (backup_nothing_there _ w1 Hout)].
  all: destruct (files w1 !! backup_path file) as [[b|b]|] eqn:Hbak.
  all: try (rewrite (backup_refused (output_path file) w1 n b Hout Hbak); by auto).
  all: rewrite (backup_moves (output_path file) w1 n Hbo Hout)
         by (intros ?; fold (backup_path file); by rewrite Hbak).
  all: cbn [files]; by rewrite lookup_insert_ne, lookup_delete_eq.
Qed.

End ResemblyzerMainProperties.

Section ResemblyzerMainEdges.
Import Os ResemblyzerScript ScriptExamples.

(** Only one generation of backup is kept: the first successful run over
    an existing model directory leaves that model at the backup path; after
    a second successful run the second package is at the model path and the
    first package has taken the old model's place at the backup path. *)
Theorem main_keeps_one_backup
        (ext1 ext2 : externals) (file : string) (w : world)
        (m1 m2 : Resemblyzer.ResemblyzerWrapper) (pkg1 pkg2 old : nat) :
  load_encoder ext1 = Some m1 -> Resemblyzer.loaded_ok m1 = true ->
  Forall (shape2 n_frames mel_channels) (randn ext1) ->
  ct_convert ext1 = Some pkg1 ->
  load_encoder ext2 = Some m2 -> Resemblyzer.loaded_ok m2 = true ->
  Forall (shape2 n_frames mel_channels) (randn ext2) ->
  ct_convert ext2 = Some pkg2 ->
  (∀ d, files w !! output_dir file ≠ Some (File d)) ->
  files w !! output_path file = Some (Dir old) ->
  (∀ d, files w !! backup_path file ≠ Some (File d)) ->
  ∃ w1 w2,
    main ext1 file w = (Ok tt, w1)
    ∧ main ext2 file w1 = (Ok tt, w2)
    ∧ files w1 !! backup_path file = Some (Dir old)
    ∧ files w2 !! output_path file = Some (Dir pkg2)
    ∧ files w2 !! backup_path file = Some (Dir pkg1).
Proof.
  intros L1 M1 X1 C1 L2 M2 X2 C2 Hdir Hout Hbak.
  destruct (main_over_model ext1 file w m1 pkg1 (Dir old) L1
              (trace_succeeds m1 _ M1 X1) C1 Hdir Hout Hbak)
    as (w1 & R1 & O1 & B1 & _ & D1 & _).
  destruct (main_over_model ext2 file w1 m2 pkg2 (Dir pkg1) L2
              (trace_succeeds m2 _ M2 X2) C2 D1 O1)
    as (w2 & R2 & O2 & B2 & _).
  { intros d. by rewrite B1. }
  by exists w1, w2.
Qed.

Lemma main_keeps_one_backup_witness :
  ∃ w1 w2,
    main (tools 7) script world_with_model = (Ok tt, w1)
    ∧ main (tools 8) script w1 = (Ok tt, w2)
    ∧ files w1 !! backup_path script = Some (Dir 1)
    ∧ files w2 !! output_path script = Some (Dir 8)
    ∧ files w2 !! backup_path script = Some (Dir 7).
Proof.
  apply (main_keeps_one_backup (tools 7) (tools 8) script world_with_model
           (Examples.rec_model (zeros 256)) (Examples.rec_model (zeros 256))
           7 8 1).
  - reflexivity.
  - vm_compute. reflexivity.
  - constructor; [|constructor]. split; [apply length_replicate|].
    apply Forall_replicate, zeros_length.
  - reflexivity.
  - reflexivity.
  - vm_compute. reflexivity.
  - constructor; [|constructor]. split; [apply length_replicate|].
    apply Forall_replicate, zeros_length.
  - reflexivity.
  - intros d. vm_compute. discriminate.
  - vm_compute. reflexivity.
  - intros d. vm_compute. discriminate.
Defined.

Lemma main_on_file_backup
      (ext : externals) (file : string) (w : world) (n : node) (d : nat) :
  (∀ d', files w !! output_dir file ≠ Some (File d')) ->
  files w !! output_path file = Some n ->
  files w !! backup_path file = Some (File d) ->
  ∃ w1,
    main ext file w = (Raised NotADirectoryError, w1)
    ∧ files w1 !! output_path file = Some n
    ∧ files w1 !! backup_path file = Some (File d)
    ∧ same_except [output_dir file] (files w) (files w1)
    ∧ stdout w1 = stdout w.
Proof.
  intros Hdir Hout Hbak.
  destruct (paths_distinct file) as (Hod & Hbd & Hbo).
  destruct (makedirs_ok _ w Hdir) as (w1 & Hmk & Hstd & Hsame & _).
  exists w1. rewrite main_unfold, (seq_ok _ _ _ _ _ Hmk).
  rewrite (seq_raised _ _ _ _ _
             (backup_refused (output_path file) w1 n d
                ltac:(by rewrite Hsame)
                ltac:(fold (backup_path file); by rewrite Hsame))).
  split; [reflexivity|]. split; [by rewrite Hsame|]. split; [by rewrite Hsame|].
  split; [|exact Hstd].
  intros q Hq. apply Hsame. rewrite not_elem_of_cons in Hq. by destruct Hq.
Qed.

(** When the backup path holds a regular file, a run over an existing
    model stops with [NotADirectoryError] before anything is moved, converted
    or printed: the model and that file stay where they are. *)
Theorem main_refuses_file_backup
        (ext : externals) (file : string) (w : world) (n : node) (d : nat) :
  (∀ d', files w !! output_dir file ≠ Some (File d')) ->
  files w !! output_path file = Some n ->
  files w !! backup_path file = Some (File d) ->
  ∃ w1,
    main ext file w = (Raised NotADirectoryError, w1)
    ∧ files w1 !! output_path file = Some n
    ∧ files w1 !! backup_path file = Some (File d)
    ∧ same_except [output_dir file] (files w) (files w1)
    ∧ stdout w1 = stdout w.
Proof. apply main_on_file_backup. Qed.

Lemma main_refuses_file_backup_witness :
  ∃ w1,
    main broken_tools script world_with_file_backup = (Raised NotADirectoryError, w1)
    ∧ files w1 !! output_path script = Some (Dir 1)
    ∧ files w1 !! backup_path script = Some (File 2)
    ∧ same_except [output_dir script] (files world_with_file_backup) (files w1)
    ∧ stdout w1 = stdout world_with_file_backup.
Proof.
  apply (main_refuses_file_backup broken_tools script world_with_file_backup (Dir 1) 2).
  - intros d. vm_compute. discriminate.
  - vm_compute. reflexivity.
  - vm_compute. reflexivity.
Defined.

(** The backup comes before the conversion: when the encoder cannot be
    loaded or the converter fails, a run over an existing model ends with an
    error and leaves no model at the model path; the old one is at the
    backup path. *)
Theorem failed_conversion_leaves_no_model
        (ext : externals) (file : string) (w : world) (n : node) :
  load_encoder ext = None ∨ ct_convert ext = None ->
  (∀ d, files w !! output_dir file ≠ Some (File d)) ->
  files w !! output_path file = Some n ->
  (∀ d, files w !! backup_path file ≠ Some (File d)) ->
  ∃ w1,
    main ext file w = (Raised LibraryError, w1)
    ∧ files w1 !! output_path file = None
    ∧ files w1 !! backup_path file = Some n.
Proof.
  intros Hbad Hdir Hout Hbak.
  destruct (paths_distinct file) as (Hod & Hbd & Hbo).
  destruct (makedirs_ok _ w Hdir) as (w1 & Hmk & Hstd & Hsame & _).
  rewrite main_unfold, (seq_ok _ _ _ _ _ Hmk).
  rewrite (seq_ok _ _ _ _ _
             (backup_moves (output_path file) w1 n Hbo
                ltac:(by rewrite Hsame) ltac:(intros d; by rewrite Hsame))).
  match goal with
  | |- context [seq (convert_resemblyzer_to_coreml ext ?out) ?k ?w2] =>
      destruct (convert_fails ext out w2 Hbad) as (w3 & Hc & Hf);
      rewrite (seq_raised _ k _ _ _ Hc)
  end.
  exists w3. split; [reflexivity|]. rewrite Hf. cbn [files].
  fold (backup_path file).
  split; [by rewrite lookup_insert_ne, lookup_delete_eq | by rewrite lookup_insert_eq].
Qed.

Lemma failed_conversion_leaves_no_model_witness :
  ∃ w1,
    main broken_tools script world_with_model = (Raised LibraryError, w1)
    ∧ files w1 !! output_path script = None
    ∧ files w1 !! backup_path script = Some (Dir 1).
Proof.
  apply (failed_conversion_leaves_no_model broken_tools script world_with_model (Dir 1)).
  - left. reflexivity.
  - intros d. vm_compute. discriminate.
  - vm_compute. reflexivity.
  - intros d. vm_compute. discriminate.
Defined.

(** A regular file at the model path survives one run only as a backup
    that stops the next: the first run moves it to the backup path and
    installs the package, the run after that raises [NotADirectoryError]
    and leaves both where they are. *)
Theorem file_model_stops_second_run
        (ext1 ext2 : externals) (file : string) (w : world)
        (m1 : Resemblyzer.ResemblyzerWrapper) (pkg1 old : nat) :
  load_encoder ext1 = Some m1 -> Resemblyzer.loaded_ok m1 = true ->
  Forall (shape2 n_frames mel_channels) (randn ext1) ->
  ct_convert ext1 = Some pkg1 ->
  (∀ d, files w !! output_dir file ≠ Some (File d)) ->
  files w !! output_path file = Some (File old) ->
  (∀ d, files w !! backup_path file ≠ Some (File d)) ->
  ∃ w1 w2,
    main ext1 file w = (Ok tt, w1)
    ∧ main ext2 file w1 = (Raised NotADirectoryError, w2)
    ∧ files w2 !! output_path file = Some (Dir pkg1)
    ∧ files w2 !! backup_path file = Some (File old).
Proof.
  intros L1 M1 X1 C1 Hdir Hout Hbak.
  destruct (main_over_model ext1 file w m1 pkg1 (File old) L1
              (trace_succeeds m1 _ M1 X1) C1 Hdir Hout Hbak)
    as (w1 & R1 & O1 & B1 & _ & D1 & _).
  destruct (main_on_file_backup ext2 file w1 (Dir pkg1) old D1 O1 B1)
    as (w2 & R2 & O2 & B2 & _).
  by exists w1, w2.
Qed.

Lemma file_model_stops_second_run_witness :
  ∃ w1 w2,
    main (tools 7) script (mkWorld {[ output_path script := File 3 ]} []) = (Ok tt, w1)
    ∧ main (tools 8) script w1 = (Raised NotADirectoryError, w2)
    ∧ files w2 !! output_path script = Some (Dir 7)
    ∧ files w2 !! backup_path script = Some (File 3).
Proof.
  apply (file_model_stops_second_run (tools 7) (tools 8) script
           (mkWorld {[ output_path script := File 3 ]} [])
           (Examples.rec_model (zeros 256)) 7 3).
  - reflexivity.
  - vm_compute. reflexivity.
  - constructor; [|constructor]. split; [apply length_replicate|].
    apply Forall_replicate, zeros_length.
  - reflexivity.
  - intros d. vm_compute. discriminate.
  - vm_compute. reflexivity.
  - intros d. vm_compute. discriminate.
Defined.

End ResemblyzerMainEdges.

(** ** [main] of convert_silero.py *)

Section SileroMain.
Import Os ScriptExamples.

Lemma silero_trace_succeeds (model : Silero.SimpleSpeakerEmbedding) (example : tensor2) :
  Silero.init_ok model = true ->
  Forall (fun row => length row = waveform_samples) example ->
  is_Some (Silero.forward model example).
Proof.
  intros Hm Hx.
  destruct (forward_cnn_ok model example waveform_samples Hm) as (raw & -> & _);
    [unfold waveform_samples; lia | exact Hx | eauto].
Qed.

Lemma format_parameter_count : SileroScript.format_commas (Z.to_nat 50016) = "50,016".
Proof. vm_compute. reflexivity. Qed.

(** A successful run, wherever it starts from. *)
Lemma silero_main_run (ext : SileroScript.externals) (file : string) (w : world)
      (pkg : nat) :
  Silero.init_ok (SileroScript.init_model ext) = true ->
  Forall (fun row => length row = waveform_samples) (SileroScript.randn ext) ->
  SileroScript.ct_convert ext = Some pkg ->
  (∀ d, files w !! output_dir file ≠ Some (File d)) ->
  ∃ w',
    SileroScript.main ext file w = (Ok tt, w')
    ∧ files w' !! output_path file = Some (Dir pkg)
    ∧ same_except [output_dir file; output_path file] (files w) (files w')
    ∧ (∀ d, files w' !! output_dir file ≠ Some (File d))
    ∧ stdout w' = stdout w ++ silero_lines (output_path file).
Proof.
  intros Hm Hx Hct Hdir.
  destruct (paths_distinct file) as (Hod & Hbd & Hbo).
  destruct (makedirs_ok _ w Hdir) as (w1 & Hmk & Hstd & Hsame & Hdir1).
  destruct (silero_trace_succeeds _ _ Hm Hx) as [t Ht].
  unfold SileroScript.main. fold (output_dir file). fold (output_path file).
  rewrite (seq_ok _ _ _ _ _ Hmk).
  unfold SileroScript.create_simple_embedding_model, SileroScript.convert_to_coreml.
  unfold seq, bind, print, ret, lift, save.
  cbn -[SileroScript.count_parameters SileroScript.format_commas Silero.forward
        String.append].
  rewrite Ht, Hct, (count_parameters_value _ Hm), format_parameter_count.
  cbn -[String.append].
  eexists. split; [reflexivity|]. cbn [files stdout].
  split; [by rewrite lookup_insert_eq|].
  split.
  { intros q Hq. rewrite !not_elem_of_cons in Hq. destruct Hq as (? & ? & _).
    rewrite lookup_insert_ne by done. by apply Hsame. }
  split.
  { intros d. rewrite lookup_insert_ne by done. apply Hdir1. }
  rewrite Hstd, <- !app_assoc. reflexivity.
Qed.

(** On a successful run [main] prints seven lines, the second of which
    reads [Model parameters: 50,016] whatever the random initialisation. *)
Theorem silero_main_prints (ext : SileroScript.externals) (file : string) (w : world)
        (pkg : nat) :
  Silero.init_ok (SileroScript.init_model ext) = true ->
  Forall (fun row => length row = waveform_samples) (SileroScript.randn ext) ->
  SileroScript.ct_convert ext = Some pkg ->
  (∀ d, files w !! output_dir file ≠ Some (File d)) ->
  ∃ w',
    SileroScript.main ext file w = (Ok tt, w')
    ∧ stdout w' = stdout w ++ silero_lines (output_path file)
    ∧ silero_lines (output_path file) !! 1 = Some "Model parameters: 50,016".
Proof.
  intros Hm Hx Hct Hdir.
  destruct (silero_main_run ext file w pkg Hm Hx Hct Hdir) as (w' & H1 & _ & _ & _ & H5).
  by exists w'.
Qed.

Lemma silero_main_prints_witness :
  ∃ w',
    SileroScript.main (silero_tools 5) script empty_world = (Ok tt, w')
    ∧ stdout w' = stdout empty_world ++ silero_lines (output_path script)
    ∧ silero_lines (output_path script) !! 1 = Some "Model parameters: 50,016".
Proof.
  apply (silero_main_prints (silero_tools 5) script empty_world 5).
  - vm_compute. reflexivity.
  - constructor; [apply zeros_length | constructor].
  - reflexivity.
  - intros d. vm_compute. discriminate.
Defined.

(** [main] of convert_silero.py has no backup step: a successful run
    puts the new package at the model path, over an earlier package
    directory if there is one, and leaves the backup path as it was. *)
Theorem silero_main_overwrites (ext : SileroScript.externals) (file : string)
        (w : world) (pkg : nat) :
  Silero.init_ok (SileroScript.init_model ext) = true ->
  Forall (fun row => length row = waveform_samples) (SileroScript.randn ext) ->
  SileroScript.ct_convert ext = Some pkg ->
  (∀ d, files w !! output_dir file ≠ Some (File d)) ->
  (∀ d, files w !! output_path file ≠ Some (File d)) ->
  ∃ w',
    SileroScript.main ext file w = (Ok tt, w')
    ∧ files w' !! output_path file = Some (Dir pkg)
    ∧ files w' !! backup_path file = files w !! backup_path file.
Proof.
  intros Hm Hx Hct Hdir _.
  destruct (silero_main_run ext file w pkg Hm Hx Hct Hdir) as (w' & H1 & H2 & H3 & _).
  exists w'. split; [exact H1|]. split; [exact H2|].
  destruct (paths_distinct file) as (Hod & Hbd & Hbo).
  apply H3. rewrite !not_elem_of_cons. repeat split; try done. apply not_elem_of_nil.
Qed.

Lemma silero_main_overwrites_witness :
  ∃ w',
    SileroScript.main (silero_tools 5) script world_with_model = (Ok tt, w')
    ∧ files w' !! output_path script = Some (Dir 5)
    ∧ files w' !! backup_path script = files world_with_model !! backup_path script.
Proof.
  apply (silero_main_overwrites (silero_tools 5) script world_with_model 5).
  - vm_compute. reflexivity.
  - constructor; [apply zeros_length | constructor].
  - reflexivity.
  - intros d. vm_compute. discriminate.
  - intros d. vm_compute. discriminate.
Defined.

(** The two scripts share the model path when they lie in the same
    directory: running convert_silero.py and then download_resemblyzer.py
    leaves the recurrent package at the model path and the CNN package at
    the backup path. *)
Theorem silero_then_resemblyzer
        (exts : SileroScript.externals) (extr : ResemblyzerScript.externals)
        (file1 file2 : string) (w : world)
        (m : Resemblyzer.ResemblyzerWrapper) (pkg1 pkg2 : nat) :
  dirname file1 = dirname file2 ->
  Silero.init_ok (SileroScript.init_model exts) = true ->
  Forall (fun row => length row = waveform_samples) (SileroScript.randn exts) ->
  SileroScript.ct_convert exts = Some pkg1 ->
  ResemblyzerScript.load_encoder extr = Some m ->
  Resemblyzer.loaded_ok m = true ->
  Forall (shape2 n_frames mel_channels) (ResemblyzerScript.randn extr) ->
  ResemblyzerScript.ct_convert extr = Some pkg2 ->
  (∀ d, files w !! output_dir file1 ≠ Some (File d)) ->
  (∀ d, files w !! backup_path file1 ≠ Some (File d)) ->
  ∃ w1 w2,
    SileroScript.main exts file1 w = (Ok tt, w1)
    ∧ ResemblyzerScript.main extr file2 w1 = (Ok tt, w2)
    ∧ files w2 !! output_path file2 = Some (Dir pkg2)
    ∧ files w2 !! backup_path file2 = Some (Dir pkg1).
Proof.
  intros Hd Hm Hx Hct Hload Hlm Hxr Hctr Hdir Hbak.
  assert (Hsame_dir : output_dir file2 = output_dir file1)
    by (unfold output_dir; by rewrite Hd).
  assert (Hsame_out : output_path file2 = output_path file1)
    by (unfold output_path; by rewrite Hsame_dir).
  assert (Hsame_bak : backup_path file2 = backup_path file1)
    by (unfold backup_path; by rewrite Hsame_out).
  destruct (paths_distinct file1) as (Hod & Hbd & Hbo).
  destruct (silero_main_run exts file1 w pkg1 Hm Hx Hct Hdir)
    as (w1 & R1 & O1 & S1 & D1 & _).
  destruct (main_over_model extr file2 w1 m pkg2 (Dir pkg1) Hload
              (trace_succeeds m _ Hlm Hxr) Hctr)
    as (w2 & R2 & O2 & B2 & _).
  - by rewrite Hsame_dir.
  - by rewrite Hsame_out.
  - intros d. rewrite Hsame_bak, S1; [apply Hbak|].
    rewrite !not_elem_of_cons. repeat split; try done. apply not_elem_of_nil.
  - by exists w1, w2.
Qed.

Lemma silero_then_resemblyzer_witness :
  ∃ w1 w2,
    SileroScript.main (silero_tools 5) "scripts/convert_silero.py" empty_world
    = (Ok tt, w1)
    ∧ ResemblyzerScript.main (tools 7) script w1 = (Ok tt, w2)
    ∧ files w2 !! output_path script = Some (Dir 7)
    ∧ files w2 !! backup_path script = Some (Dir 5).
Proof.
  apply (silero_then_resemblyzer (silero_tools 5) (tools 7)
           "scripts/convert_silero.py" script empty_world
           (Examples.rec_model (zeros 256)) 5 7).
  - vm_compute. reflexivity.
  - vm_compute. reflexivity.
  - constructor; [apply zeros_length | constructor].
  - reflexivity.
  - reflexivity.
  - vm_compute. reflexivity.
  - constructor; [|constructor]. split; [apply length_replicate|].
    apply Forall_replicate, zeros_length.
  - reflexivity.
  - intros d. vm_compute. discriminate.
  - intros d. vm_compute. discriminate.
Defined.

End SileroMain.
